(** * ChatGenesis: the response extractors of [chatopt.py]

    A shallow embedding of [ChatOPT.generate_questions] and
    [ChatOPT.generate_masterplan] (src/chatopt.py) together with the
    library routines they call ([str.strip], [str.split], [re.search],
    [json.loads], the keyword-argument construction of a pydantic model,
    the f-string formatting of a [PromptTemplate]), followed by the
    properties of the two operations.

    Python text is a sequence of Unicode code points: a [str] is a list of
    code points, so that [str.strip] and the [\s] of [re] see the same
    whitespace as the interpreter and a JSON [\uXXXX] escape decodes to the
    code point it names. *)

From Stdlib Require Import List NArith ZArith Bool Lia String Ascii.
Import ListNotations.

Set Implicit Arguments.

(** ** Text *)

Module Text.

Abbreviation char := N (only parsing).
Abbreviation str := (list N) (only parsing).

(** The code points of a literal of this file (all literals are ASCII). *)
Definition lit (s : string) : str :=
  List.map N_of_ascii (list_ascii_of_string s).

(** The same, with every apostrophe of the literal standing for a double
    quote: JSON text is written ['name': 'Orders'] below. *)
Definition qlit (s : string) : str :=
  List.map (fun c => if N.eqb c 39 then 34%N else c) (lit s).

Definition dquote : char := 34%N.
Definition backslash : char := 92%N.
Definition lbracket : char := 91%N.
Definition rbracket : char := 93%N.
Definition lbrace : char := 123%N.
Definition rbrace : char := 125%N.
Definition newline : char := 10%N.

(** [str.isspace] on one code point, which is also the class [\s] of [re]
    on a [str] pattern: the characters of bidirectional type WS, B or S and
    of category Zs. *)
Definition isspace (c : char) : bool :=
  ((9 <=? c) && (c <=? 13) || (28 <=? c) && (c <=? 32)
   || (c =? 133) || (c =? 160) || (c =? 5760)
   || (8192 <=? c) && (c <=? 8202)
   || (c =? 8232) || (c =? 8233) || (c =? 8239) || (c =? 8287)
   || (c =? 12288))%N.

Fixpoint str_eqb (a b : str) : bool :=
  match a, b with
  | [], [] => true
  | x :: a', y :: b' => N.eqb x y && str_eqb a' b'
  | _, _ => false
  end.

(** [s.startswith(p)], returning what follows the prefix. *)
Fixpoint strip_prefix (p s : str) : option str :=
  match p, s with
  | [], _ => Some s
  | x :: p', y :: s' => if N.eqb x y then strip_prefix p' s' else None
  | _ :: _, [] => None
  end.

Definition startswith (p s : str) : bool :=
  match strip_prefix p s with Some _ => true | None => false end.

Definition endswith (p s : str) : bool := startswith (rev p) (rev s).

Fixpoint lstrip (s : str) : str :=
  match s with
  | [] => []
  | c :: s' => if isspace c then lstrip s' else s
  end.

Definition rstrip (s : str) : str := rev (lstrip (rev s)).

(** [s.strip()] *)
Definition strip (s : str) : str := rstrip (lstrip s).

(** [s.split(sep)] for a one-character separator: the fields between the
    separators, at least one. *)
Fixpoint split (sep : char) (s : str) : list str :=
  match s with
  | [] => [[]]
  | c :: s' =>
      if N.eqb c sep then [] :: split sep s'
      else match split sep s' with
           | [] => [[c]]
           | l :: ls => (c :: l) :: ls
           end
  end.

End Text.

Import Text.

(** ** Python values

    What [json.loads] builds: [None], [bool], [int], [float], [str], [list]
    and [dict].  A [float] is kept as the literal it was read from; a
    [dict] is its items in insertion order, keys distinct. *)

#[warnings="-register-all"]
Inductive value : Type :=
| PyNone
| PyBool (b : bool)
| PyInt (z : Z)
| PyFloat (literal : str)
| PyStr (s : str)
| PyList (l : list value)
| PyDict (items : list (str * value)).

(** [d[k] = v]: a new key goes last, a known key keeps its place. *)
Fixpoint dict_set (k : str) (v : value) (d : list (str * value))
  : list (str * value) :=
  match d with
  | [] => [(k, v)]
  | (k', v') :: d' =>
      if str_eqb k k' then (k, v) :: d' else (k', v') :: dict_set k v d'
  end.

(** [dict(pairs)] *)
Definition dict_of_pairs (pairs : list (str * value)) : list (str * value) :=
  fold_left (fun d kv => dict_set (fst kv) (snd kv) d) pairs [].

(** [d.get(k)] *)
Fixpoint dict_get (k : str) (d : list (str * value)) : option value :=
  match d with
  | [] => None
  | (k', v) :: d' => if str_eqb k k' then Some v else dict_get k d'
  end.

(** ** [json.loads]

    The decoder of the [json] module with its default settings, as
    [json/decoder.py] and [json/scanner.py] write it: recursive descent
    over the text, here over the text that is left.  Every failure of the
    decoder is a [JSONDecodeError]; the recursion of [scan_once] through
    arrays and objects is bounded by a counter that [json_loads] sets
    above what a text can use ([scan_once_fuel] below).  The limits of an
    interpreter are not part of the decoder and are left out: CPython
    from 3.11 on refuses an integer literal of more than 4300 digits with
    a [ValueError], and nesting beyond its recursion depth with a
    [RecursionError]; both texts are decoded here.  The theorems are
    therefore stated on what the decoder returns: a hypothesis that
    [json_loads] decodes a text reads as the call of [json.loads]
    returning that value, and holds of no text the interpreter refuses. *)

Module Json.

Inductive scan (A : Type) : Type :=
| Ok (a : A) (rest : str)      (* a value, and the text after it *)
| Err                          (* JSONDecodeError *)
| OutOfFuel.
Arguments Err {A}.
Arguments OutOfFuel {A}.

Definition scan_map {A B} (f : A -> B) (r : scan A) : scan B :=
  match r with
  | Ok a rest => Ok (f a) rest
  | Err => Err
  | OutOfFuel => OutOfFuel
  end.

(** [WHITESPACE]: space, tab, line feed and carriage return. *)
Definition is_ws (c : char) : bool :=
  ((c =? 32) || (c =? 9) || (c =? 10) || (c =? 13))%N.

Fixpoint skip_ws (s : str) : str :=
  match s with
  | [] => []
  | c :: s' => if is_ws c then skip_ws s' else s
  end.

Definition is_digit (c : char) : bool := ((48 <=? c) && (c <=? 57))%N.

Definition hexval (c : char) : option N :=
  (if (48 <=? c) && (c <=? 57) then Some (c - 48)
   else if (97 <=? c) && (c <=? 102) then Some (c - 87)
   else if (65 <=? c) && (c <=? 70) then Some (c - 55)
   else None)%N.

(** [_decode_uXXXX]: four hexadecimal digits. *)
Definition hex4 (a b c d : char) : option N :=
  match hexval a, hexval b, hexval c, hexval d with
  | Some x, Some y, Some z, Some w => Some (((x * 16 + y) * 16 + z) * 16 + w)%N
  | _, _, _, _ => None
  end.

(** [BACKSLASH]: the one-letter escapes. *)
Definition BACKSLASH (e : char) : option char :=
  (if e =? 34 then Some 34         (* quotation mark *)
   else if e =? 92 then Some 92    (* reverse solidus *)
   else if e =? 47 then Some 47    (* solidus *)
   else if e =? 98 then Some 8     (* b: backspace *)
   else if e =? 102 then Some 12   (* f: form feed *)
   else if e =? 110 then Some 10   (* n: line feed *)
   else if e =? 114 then Some 13   (* r: carriage return *)
   else if e =? 116 then Some 9    (* t: tab *)
   else None)%N.

(** [scanstring(s, end, strict=True)], from the character after the opening
    quote: the decoded string and the text after the closing quote.  A high
    surrogate escape followed by a low surrogate escape is one code point;
    a control character in the string is an error. *)
Fixpoint scanstring (s : str) : scan str :=
  match s with
  | [] => Err
  | c :: r =>
      if (c =? dquote)%N then Ok [] r
      else if (c =? backslash)%N then
        match r with
        | [] => Err
        | e :: r1 =>
            if (e =? 117)%N then
              match r1 with
              | h1 :: h2 :: h3 :: h4 :: r2 =>
                  match hex4 h1 h2 h3 h4 with
                  | None => Err
                  | Some uni =>
                      let single := scan_map (cons uni) (scanstring r2) in
                      if ((55296 <=? uni) && (uni <=? 56319))%N then
                        match r2 with
                        | b :: u :: g1 :: g2 :: g3 :: g4 :: r3 =>
                            if ((b =? backslash) && (u =? 117))%N then
                              match hex4 g1 g2 g3 g4 with
                              | None => Err
                              | Some uni2 =>
                                  if ((56320 <=? uni2) && (uni2 <=? 57343))%N
                                  then scan_map
                                         (cons (65536 + N.lor (N.shiftl (uni - 55296) 10)
                                                              (uni2 - 56320))%N)
                                         (scanstring r3)
                                  else single
                              end
                            else single
                        | _ => single
                        end
                      else single
                  end
              | _ => Err
              end
            else
              match BACKSLASH e with
              | Some x => scan_map (cons x) (scanstring r1)
              | None => Err
              end
        end
      else if (c <? 32)%N then Err
      else scan_map (cons c) (scanstring r)
  end.

Fixpoint span_digits (s : str) : str * str :=
  match s with
  | [] => ([], [])
  | c :: s' =>
      if is_digit c then let (ds, r) := span_digits s' in (c :: ds, r)
      else ([], s)
  end.

(** [int(digits)] *)
Definition int_of_digits (ds : str) : Z :=
  fold_left (fun acc c => (acc * 10 + Z.of_N (c - 48))%Z) ds 0%Z.

(** The integer part of [NUMBER_RE]: an optional minus sign, then a
    zero or a nonzero digit followed by digits. *)
Definition match_integer (s : str) : option (bool * str * str) :=
  let (neg, s1) :=
    match s with
    | c :: r => if (c =? 45)%N then (true, r) else (false, s)
    | [] => (false, s)
    end in
  match s1 with
  | d :: r =>
      if (d =? 48)%N then Some (neg, [d], r)
      else if is_digit d then
        let (ds, r') := span_digits r in Some (neg, d :: ds, r')
      else None
  | [] => None
  end.

(** The optional fraction of [NUMBER_RE]: a point and one digit or more. *)
Definition match_frac (s : str) : str * str :=
  match s with
  | c :: r =>
      if (c =? 46)%N then
        match span_digits r with
        | ([], _) => ([], s)
        | (ds, r') => (c :: ds, r')
        end
      else ([], s)
  | [] => ([], s)
  end.

(** The optional exponent of [NUMBER_RE]: [e] or [E], an optional sign and
    one digit or more. *)
Definition match_exp (s : str) : str * str :=
  match s with
  | c :: r =>
      if ((c =? 101) || (c =? 69))%N then
        let (sign, r1) :=
          match r with
          | x :: r' => if ((x =? 45) || (x =? 43))%N then ([x], r') else ([], r)
          | [] => ([], r)
          end in
        match span_digits r1 with
        | ([], _) => ([], s)
        | (ds, r2) => (c :: sign ++ ds, r2)
        end
      else ([], s)
  | [] => ([], s)
  end.

(** [match_number]: an [int] when the literal has neither fraction nor
    exponent, a [float] otherwise. *)
Definition match_number (s : str) : option (value * str) :=
  match match_integer s with
  | None => None
  | Some (neg, ds, r) =>
      let (frac, r1) := match_frac r in
      let (exp, r2) := match_exp r1 in
      match frac, exp with
      | [], [] =>
          Some (PyInt (if neg then - int_of_digits ds else int_of_digits ds)%Z, r2)
      | _, _ =>
          Some (PyFloat ((if neg then [45%N] else []) ++ ds ++ frac ++ exp), r2)
      end
  end.

(** A keyword of the scanner: [string[idx:idx + n] == word]. *)
Definition keyword (word : string) (v : value) (s : str) : option (value * str) :=
  match strip_prefix (lit word) s with
  | Some rest => Some (v, rest)
  | None => None
  end.

Definition first_of {A} (a b : option A) : option A :=
  match a with Some _ => a | None => b end.

(** What [scan_once] reads that is neither a string, an object nor an
    array, in the order of its tests. *)
Definition scan_atom (s : str) : option (value * str) :=
  first_of (keyword "null" PyNone s)
  (first_of (keyword "true" (PyBool true) s)
  (first_of (keyword "false" (PyBool false) s)
  (first_of (match_number s)
  (first_of (keyword "NaN" (PyFloat (lit "NaN")) s)
  (first_of (keyword "Infinity" (PyFloat (lit "Infinity")) s)
            (keyword "-Infinity" (PyFloat (lit "-Infinity")) s)))))).

(** [scan_once], [JSONArray] after its first value position and
    [JSONObject] after its first key position. *)
Fixpoint scan_once (fuel : nat) (s : str) {struct fuel} : scan value :=
  match fuel with
  | O => OutOfFuel
  | S f =>
      match s with
      | [] => Err
      | c :: r =>
          if (c =? dquote)%N then scan_map PyStr (scanstring r)
          else if (c =? lbrace)%N then
            match skip_ws r with
            | x :: r' =>
                if (x =? rbrace)%N then Ok (PyDict []) r'
                else scan_map (fun ps => PyDict (dict_of_pairs ps))
                              (object_items f (skip_ws r))
            | [] => Err
            end
          else if (c =? lbracket)%N then
            match skip_ws r with
            | x :: r' =>
                if (x =? rbracket)%N then Ok (PyList []) r'
                else scan_map PyList (array_items f (skip_ws r))
            | [] => Err
            end
          else
            match scan_atom s with
            | Some (v, rest) => Ok v rest
            | None => Err
            end
      end
  end

with array_items (fuel : nat) (s : str) {struct fuel} : scan (list value) :=
  match fuel with
  | O => OutOfFuel
  | S f =>
      match scan_once f s with
      | Ok v rest =>
          match skip_ws rest with
          | x :: r =>
              if (x =? rbracket)%N then Ok [v] r
              else if (x =? 44)%N then
                scan_map (cons v) (array_items f (skip_ws r))
              else Err
          | [] => Err
          end
      | Err => Err
      | OutOfFuel => OutOfFuel
      end
  end

with object_items (fuel : nat) (s : str) {struct fuel}
  : scan (list (str * value)) :=
  match fuel with
  | O => OutOfFuel
  | S f =>
      match s with
      | q :: r =>
          if (q =? dquote)%N then
            match scanstring r with
            | Ok key rest =>
                match skip_ws rest with
                | x :: r1 =>
                    if (x =? 58)%N then
                      match scan_once f (skip_ws r1) with
                      | Ok v rest1 =>
                          match skip_ws rest1 with
                          | y :: r2 =>
                              if (y =? rbrace)%N then Ok [(key, v)] r2
                              else if (y =? 44)%N then
                                scan_map (cons (key, v))
                                         (object_items f (skip_ws r2))
                              else Err
                          | [] => Err
                          end
                      | Err => Err
                      | OutOfFuel => OutOfFuel
                      end
                    else Err
                | [] => Err
                end
            | Err => Err
            | OutOfFuel => OutOfFuel
            end
          else Err
      | [] => Err
      end
  end.

(** [json.loads(s)]: one value between optional whitespace, and nothing
    else.  [None] is the [JSONDecodeError]. *)
Definition json_loads (s : str) : option value :=
  match scan_once (S (2 * List.length s)) (skip_ws s) with
  | Ok v rest => match skip_ws rest with [] => Some v | _ :: _ => None end
  | _ => None
  end.

End Json.

Import Json.


(** ** Exceptions, output and the completion service

    The operations catch exceptions by class, print to the standard output
    and call a completion service.  A computation takes the state of the
    outside world (the prompts sent so far, the lines printed so far) and
    either returns or raises. *)

Inductive exn_class : Type :=
| JSONDecodeError       (* json; a ValueError *)
| ValidationError       (* pydantic; a ValueError *)
| ValueError
| TypeError
| KeyError
| OtherException.       (* any other subclass of Exception *)

Record exn : Type := { exn_cls : exn_class; exn_str : str (* [str(e)] *) }.

(** [isinstance(e, ValueError)] *)
Definition is_ValueError (e : exn) : bool :=
  match exn_cls e with
  | JSONDecodeError | ValidationError | ValueError => true
  | _ => false
  end.

(** [isinstance(e, json.JSONDecodeError)] *)
Definition is_JSONDecodeError (e : exn) : bool :=
  match exn_cls e with JSONDecodeError => true | _ => false end.

Inductive outcome (A : Type) : Type :=
| Return (a : A)
| Raise (e : exn).
Arguments Raise {A}.

Record world : Type := {
  sent : list str;        (* the prompts given to the completion service *)
  printed : list str      (* the lines written to the standard output *)
}.

Definition M (A : Type) : Type := world -> outcome A * world.

Definition ret {A} (a : A) : M A := fun w => (Return a, w).

Definition raise {A} (e : exn) : M A := fun w => (Raise e, w).

Definition bind {A B} (m : M A) (k : A -> M B) : M B :=
  fun w =>
    match m w with
    | (Return a, w') => k a w'
    | (Raise e, w') => (Raise e, w')
    end.

Notation "x <- m ;; k" := (bind m (fun x => k))
  (at level 61, m at next level, right associativity).
Notation "m ;;; k" := (bind m (fun _ => k))
  (at level 61, right associativity).

(** [try: body  except classes as e: handler(e)] *)
Definition try_except {A} (body : M A) (classes : exn -> bool)
           (handler : exn -> M A) : M A :=
  fun w =>
    match body w with
    | (Return a, w') => (Return a, w')
    | (Raise e, w') => if classes e then handler e w' else (Raise e, w')
    end.

(** [except Exception] *)
Definition Exception (e : exn) : bool := true.

(** [print(line)] *)
Definition print (line : str) : M unit :=
  fun w => (Return tt, {| sent := sent w; printed := printed w ++ [line] |}).

Fixpoint mapM {A B} (f : A -> M B) (l : list A) : M (list B) :=
  match l with
  | [] => ret []
  | a :: l' => b <- f a ;; bs <- mapM f l' ;; ret (b :: bs)
  end.

(** What the interpreter and the libraries decide and this file does not
    fix: the text of the exceptions they raise, and what pydantic makes of
    a field whose value is not of the annotated type (its versions differ:
    some convert an [int] to a [str], or [1] and ["yes"] to [True]).  A
    value of the annotated type is accepted as it is by all of them. *)

Inductive fault : Type :=
| Undecodable (doc : str)                 (* json.loads(doc) *)
| Invalid (data : list (str * value))     (* a pydantic model from data *)
| NotAMapping (v : value)                 (* keyword arguments from v *)
| NotIterable (v : value)                 (* [for x in v] *)
| MissingField (k : str)                  (* a template field with no value *)
| BadTemplate.                            (* a single brace in a template *)

Class Library : Type := {
  message : fault -> str;
  validate_str : value -> option str;
  validate_bool : value -> option bool;
  validate_dict : value -> option (list (str * value));
  validate_str_str : forall s, validate_str (PyStr s) = Some s;
  validate_bool_bool : forall b, validate_bool (PyBool b) = Some b;
  validate_dict_dict : forall d, validate_dict (PyDict d) = Some d
}.

(** A library that converts nothing. *)
#[refine] Instance strict : Library := {|
  message f :=
    match f with
    | Undecodable _ => lit "Expecting value"
    | Invalid _ => lit "validation error for APISpec"
    | NotAMapping _ => lit "argument after ** must be a mapping"
    | NotIterable _ => lit "object is not iterable"
    | MissingField k => k
    | BadTemplate => lit "Single brace encountered in format string"
    end;
  validate_str v := match v with PyStr s => Some s | _ => None end;
  validate_bool v := match v with PyBool b => Some b | _ => None end;
  validate_dict v := match v with PyDict d => Some d | _ => None end
|}.
Proof. all: reflexivity. Defined.

(** ** Prompts

    The two templates of [ChatOPT.__init__], character for character. *)

Definition questions_template : str := lit "
            You are ChatOPT, an expert in API design and software architecture. Your task is to ask follow-up questions to gather more information about the business before generating an API masterplan.
            
            Business Context:
            - Mission Statement/Operating Model: {mission_statement}
            - Company Name: {company_name}
            - Industry: {industry}
            - Business Size: {business_size}
            
            Based on this information, generate 5-7 specific questions that will help you better understand:
            1. The core business processes
            2. The users/customers and their needs
            3. Existing systems and integrations
            4. Data handling requirements
            5. Scalability and performance expectations
            6. Security and compliance requirements
            
            Format your output as a JSON list of strings containing only the questions, without any introductory text.
            ".

Definition masterplan_template : str := qlit "
            You are ChatOPT, an expert in API design and software architecture. Based on the business context below, create a comprehensive API masterplan.
            
            Business Context:
            - Mission Statement/Operating Model: {mission_statement}
            - Company Name: {company_name}
            - Industry: {industry}
            - Business Size: {business_size}
            
            Generate a markdown OPT (Operating Process Technology) masterplan that includes:
            
            1. Executive Summary: A brief overview of the proposed API architecture.
            
            2. Core API Specifications:
               - For each core business function, define an API with:
                 - Name and description
                 - Key endpoints (routes, methods, purpose)
                 - Data models
                 - Whether it should be built in-house or integrated with third-party services (with reasoning)
            
            3. Integration Architecture:
               - How the APIs connect with each other
               - Authentication and security considerations
               - Data flows between systems
            
            4. Implementation Roadmap:
               - Prioritized list of APIs to develop
               - Estimated complexity for each
               - Dependencies between APIs
            
            5. Technical Considerations:
               - Scalability recommendations
               - Security best practices
               - Monitoring and observability suggestions
            
            Format your response with two parts:
            1. The full markdown content for the masterplan
            2. A structured JSON array of API specifications with the following format for each API:
               ```
               {{
                 'name': 'API name',
                 'description': 'Brief description',
                 'endpoints': [
                   {{
                     'path': '/example/path',
                     'method': 'GET|POST|PUT|DELETE',
                     'purpose': 'What this endpoint does'
                   }}
                 ],
                 'build_in_house': true|false,
                 'reason': 'Reasoning for build vs integrate decision'
               }}
               ```
            
            IMPORTANT: Make sure your JSON is valid and properly formatted.
            ".

(** [template.format] with keyword arguments [kw], for a template whose replacement fields are
    plain names, as both templates are: a doubled brace is a brace, [{k}]
    is the value of [k].  [field] is the name being read, last character
    first, when the scan is inside a field. *)
Fixpoint vformat (tpl : str) (field : option str) (kw : list (str * str))
  : fault + str :=
  match tpl with
  | [] => match field with None => inr [] | Some _ => inl BadTemplate end
  | c :: t =>
      match field with
      | Some k =>
          if (c =? rbrace)%N then
            match find (fun kv => str_eqb (rev k) (fst kv)) kw with
            | Some kv =>
                match vformat t None kw with
                | inr out => inr (snd kv ++ out)
                | inl f => inl f
                end
            | None => inl (MissingField (rev k))
            end
          else vformat t (Some (c :: k)) kw
      | None =>
          if (c =? lbrace)%N then
            match t with
            | c' :: t' =>
                if (c' =? lbrace)%N then
                  match vformat t' None kw with
                  | inr out => inr (lbrace :: out)
                  | inl f => inl f
                  end
                else vformat t (Some []) kw
            | [] => inl BadTemplate
            end
          else if (c =? rbrace)%N then
            match t with
            | c' :: t' =>
                if (c' =? rbrace)%N then
                  match vformat t' None kw with
                  | inr out => inr (rbrace :: out)
                  | inl f => inl f
                  end
                else inl BadTemplate
            | [] => inl BadTemplate
            end
          else
            match vformat t None kw with
            | inr out => inr (c :: out)
            | inl f => inl f
            end
      end
  end.

Record PromptTemplate : Type := {
  input_variables : list str;
  template : str
}.

(** The completion service: what it answers to a prompt, or the exception
    the call ends with. *)
Definition ChatOpenAI : Type := str -> outcome str.

Record LLMChain : Type := { chain_llm : ChatOpenAI; prompt : PromptTemplate }.

Record ChatOPT : Type := {
  llm : ChatOpenAI;
  questions_prompt : PromptTemplate;
  masterplan_prompt : PromptTemplate;
  questions_chain : LLMChain;
  masterplan_chain : LLMChain
}.

Definition fields : list str :=
  [lit "mission_statement"; lit "company_name"; lit "industry"; lit "business_size"].

(** [ChatOPT.__init__] *)
Definition ChatOPT_init (model : ChatOpenAI) : ChatOPT :=
  let questions_prompt :=
    {| input_variables := fields; template := questions_template |} in
  let masterplan_prompt :=
    {| input_variables := fields; template := masterplan_template |} in
  {| llm := model;
     questions_prompt := questions_prompt;
     masterplan_prompt := masterplan_prompt;
     questions_chain := {| chain_llm := model; prompt := questions_prompt |};
     masterplan_chain := {| chain_llm := model; prompt := masterplan_prompt |} |}.

(** [x or default] on an optional string: [None] and the empty string are
    false. *)
Definition or_ (x : option str) (default : str) : str :=
  match x with
  | None => default
  | Some [] => default
  | Some s => s
  end.

Section Operations.

Context {lib : Library}.

Definition error (c : exn_class) (f : fault) : exn :=
  {| exn_cls := c; exn_str := message f |}.

(** [chain.run(inputs)]: the prompt is formatted, sent, and the answer of
    the service is the result. *)
Definition run (chain : LLMChain) (inputs : list (str * str)) : M str :=
  match vformat (template (prompt chain)) None inputs with
  | inl BadTemplate => raise (error ValueError BadTemplate)
  | inl f => raise (error KeyError f)
  | inr text =>
      fun w =>
        (chain_llm chain text, {| sent := sent w ++ [text]; printed := printed w |})
  end.

(** [json.loads(doc)] as a computation. *)
Definition loads (doc : str) : M value :=
  match json_loads doc with
  | Some v => ret v
  | None => raise (error JSONDecodeError (Undecodable doc))
  end.

(** [for x in v]: the elements of a list, the keys of a dict, the
    characters of a string. *)
Definition iter (v : value) : M (list value) :=
  match v with
  | PyList l => ret l
  | PyDict d => ret (map (fun kv => PyStr (fst kv)) d)
  | PyStr s => ret (map (fun c => PyStr [c]) s)
  | _ => raise (error TypeError (NotIterable v))
  end.

(** *** [class APISpec(BaseModel)] *)

Record APISpec : Type := {
  name : str;
  description : str;
  endpoints : list (list (str * value));
  build_in_house : bool;
  reason : str
}.

(** [List[Dict]] *)
Fixpoint validate_dicts (l : list value) : option (list (list (str * value))) :=
  match l with
  | [] => Some []
  | v :: l' =>
      match validate_dict v, validate_dicts l' with
      | Some d, Some ds => Some (d :: ds)
      | _, _ => None
      end
  end.

Definition validate_endpoints (v : value) : option (list (list (str * value))) :=
  match v with
  | PyList l => validate_dicts l
  | _ => None
  end.

(** The validation of the five fields, all required; other keys are
    ignored. *)
Definition APISpec_validate (data : list (str * value)) : option APISpec :=
  match dict_get (lit "name") data, dict_get (lit "description") data,
        dict_get (lit "endpoints") data, dict_get (lit "build_in_house") data,
        dict_get (lit "reason") data with
  | Some n, Some d, Some e, Some b, Some r =>
      match validate_str n, validate_str d, validate_endpoints e,
            validate_bool b, validate_str r with
      | Some n', Some d', Some e', Some b', Some r' =>
          Some {| name := n'; description := d'; endpoints := e';
                  build_in_house := b'; reason := r' |}
      | _, _, _, _, _ => None
      end
  | _, _, _, _, _ => None
  end.

(** [APISpec] called with the keyword arguments [spec], as the list
    comprehension does: the interpreter unpacks a mapping or raises
    [TypeError]; pydantic validates or raises [ValidationError]. *)
Definition APISpec_new (spec : value) : M APISpec :=
  match spec with
  | PyDict data =>
      match APISpec_validate data with
      | Some a => ret a
      | None => raise (error ValidationError (Invalid data))
      end
  | _ => raise (error TypeError (NotAMapping spec))
  end.

(** *** [class MasterplanResponse(BaseModel)] *)

Record MasterplanResponse : Type := {
  markdown_content : str;
  api_specs : list APISpec;
  questions : option (list str)
}.

(** [MasterplanResponse(markdown_content=m, api_specs=a)] *)
Definition MasterplanResponse_new (m : str) (a : list APISpec) : MasterplanResponse :=
  {| markdown_content := m; api_specs := a; questions := None |}.

(** *** [ChatOPT.generate_questions] *)

Definition no_questions : list value :=
  [PyStr (lit "Could not generate questions. Please try again.")].

Definition questions_error : list value :=
  [PyStr (lit "An error occurred while generating questions. Please try again.")].

Definition context (mission_statement : str)
           (company_name industry business_size : option str) : list (str * str) :=
  [(lit "mission_statement", mission_statement);
   (lit "company_name", or_ company_name (lit "Not specified"));
   (lit "industry", or_ industry (lit "Not specified"));
   (lit "business_size", or_ business_size (lit "Not specified"))].

(** The lines kept by the fallback of [generate_questions]. *)
Definition question_lines (response : str) : list str :=
  map strip
      (filter (fun line =>
                 match strip line with
                 | [] => false
                 | _ :: _ =>
                     negb (startswith [lbracket] (strip line))
                     && negb (endswith [rbracket] (strip line))
                 end)
              (split newline (strip response))).

(** The inner [try] statement of [generate_questions]. *)
Definition parse_questions (response : str) : M (list value) :=
  try_except
    (questions <- loads response ;;
     match questions with
     | PyList l => ret l
     | _ => ret no_questions
     end)
    is_JSONDecodeError
    (fun _ =>
       let lines := question_lines response in
       match lines with
       | _ :: _ => ret (map PyStr lines)
       | [] => ret no_questions
       end).

Definition generate_questions (self : ChatOPT) (mission_statement : str)
           (company_name industry business_size : option str) : M (list value) :=
  try_except
    (response <- run (questions_chain self)
                     (context mission_statement company_name industry business_size) ;;
     parse_questions response)
    Exception
    (fun e =>
       print (lit "Error generating questions: " ++ exn_str e) ;;;
       ret questions_error).

(** *** [ChatOPT.generate_masterplan] *)

(** [re.search] for an opening bracket, whitespace, an opening brace,
    whitespace and the quoted key [name] with its colon: whether the pattern
    matches at the start of [s], and the start of the leftmost match. *)
Definition match_here (s : str) : bool :=
  match s with
  | c :: r =>
      (c =? lbracket)%N
      && match lstrip r with
         | c' :: r' => (c' =? lbrace)%N && startswith (qlit "'name':") (lstrip r')
         | [] => false
         end
  | [] => false
  end.

Fixpoint re_search (s : str) : option nat :=
  if match_here s then Some 0
  else match s with
       | [] => None
       | _ :: s' => option_map S (re_search s')
       end.

(** The loop over [enumerate(json_content)]: the index at which it breaks,
    if it does. *)
Fixpoint closing_bracket (json_content : str) (bracket_count : Z) (i : nat)
  : option nat :=
  match json_content with
  | [] => None
  | char :: rest =>
      if (char =? lbracket)%N then closing_bracket rest (bracket_count + 1)%Z (S i)
      else if (char =? rbracket)%N then
        let bracket_count := (bracket_count - 1)%Z in
        if (bracket_count =? 0)%Z then Some i
        else closing_bracket rest bracket_count (S i)
      else closing_bracket rest bracket_count (S i)
  end.

(** [json_content] after the loop. *)
Definition isolate (json_content : str) : str :=
  match closing_bracket json_content 0 0 with
  | Some i => firstn (i + 1) json_content
  | None => json_content
  end.

Definition masterplan_error (e : exn) : MasterplanResponse :=
  MasterplanResponse_new
    (lit "An error occurred while generating the masterplan: " ++ exn_str e) [].

(** The body of the inner [try] statement of [generate_masterplan], with
    the values the two local variables have on entry. *)
Definition find_api_specs (response markdown_content : str)
           (api_specs : list APISpec) : M MasterplanResponse :=
  match re_search response with
  | Some json_start =>
      let json_content := isolate (skipn json_start response) in
      api_specs_raw <- loads json_content ;;
      specs <- iter api_specs_raw ;;
      api_specs <- mapM APISpec_new specs ;;
      let markdown_content := strip (firstn json_start response) in
      ret (MasterplanResponse_new markdown_content api_specs)
  | None => ret (MasterplanResponse_new markdown_content api_specs)
  end.

(** The inner [try] statement.  Its handler reads [markdown_content], which
    is still the response when an exception reaches it: the statements
    that can raise come before the assignment that trims it. *)
Definition parse_masterplan (response : str) : M MasterplanResponse :=
  let markdown_content := response in
  let api_specs := [] in
  try_except
    (find_api_specs response markdown_content api_specs)
    is_ValueError
    (fun e =>
       print (lit "Error parsing API specs JSON: " ++ exn_str e) ;;;
       ret (MasterplanResponse_new markdown_content [])).

Definition generate_masterplan (self : ChatOPT) (mission_statement : str)
           (company_name industry business_size : option str)
  : M MasterplanResponse :=
  try_except
    (response <- run (masterplan_chain self)
                     (context mission_statement company_name industry business_size) ;;
     parse_masterplan response)
    Exception
    (fun e =>
       print (lit "Error generating masterplan: " ++ exn_str e) ;;;
       ret (masterplan_error e)).

End Operations.

(** ** The vocabulary of the specification *)

(** The lines of a text that, once trimmed, are not empty, do not start
    with an opening bracket and do not end with a closing one; each
    trimmed. *)
Definition kept_lines (text : str) : list str :=
  map strip
      (filter (fun line =>
                 negb (str_eqb (strip line) [])
                 && negb (startswith [lbracket] (strip line))
                 && negb (endswith [rbracket] (strip line)))
              (split newline text)).

(** The world before anything was sent or printed. *)
Definition fresh : world := {| sent := []; printed := [] |}.

(** A service that answers every prompt with the same text. *)
Definition answering (response : str) : ChatOPT :=
  ChatOPT_init (fun _ => Return response).

(** A service whose call fails with the message [text]. *)
Definition failing (text : str) : ChatOPT :=
  ChatOPT_init (fun _ => Raise {| exn_cls := OtherException; exn_str := text |}).

(** A text that starts with the marker of the specification array: an
    opening bracket, an opening brace and the quoted key [name] with its
    colon, whitespace allowed after the bracket and after the brace. *)
Definition marker (s : str) : Prop :=
  exists w1 w2 rest,
    s = [lbracket] ++ w1 ++ [lbrace] ++ w2 ++ qlit "'name':" ++ rest
    /\ forallb isspace w1 = true /\ forallb isspace w2 = true.

(** [arr] starts with the marker and no marker starts inside [md]: in
    [md ++ arr] the leftmost marker is where [arr] starts. *)
Definition earliest_marker (md arr : str) : Prop :=
  marker arr
  /\ forall pre post,
      md ++ arr = pre ++ post -> List.length pre < List.length md -> ~ marker post.




(** A JSON object that has the five fields with values of the annotated
    types, and the specification with these values. *)
Definition describes (v : value) (a : APISpec) : Prop :=
  exists d,
    v = PyDict d
    /\ dict_get (lit "name") d = Some (PyStr (name a))
    /\ dict_get (lit "description") d = Some (PyStr (description a))
    /\ dict_get (lit "endpoints") d = Some (PyList (map PyDict (endpoints a)))
    /\ dict_get (lit "build_in_house") d = Some (PyBool (build_in_house a))
    /\ dict_get (lit "reason") d = Some (PyStr (reason a)).

(** *** String literals

    Where a character of a JSON text stands: outside the string literals,
    inside one, or inside one after a reverse solidus. *)

Inductive lexing : Type := Outside | Inside | Escaped.

Definition lex_step (st : lexing) (c : char) : lexing :=
  match st with
  | Outside => if (c =? dquote)%N then Inside else Outside
  | Inside =>
      if (c =? dquote)%N then Outside
      else if (c =? backslash)%N then Escaped
      else Inside
  | Escaped => Inside
  end.

(** No closing bracket stands inside a string literal of [s], read from
    the state [st]. *)
Fixpoint closing_free (st : lexing) (s : str) : bool :=
  match s with
  | [] => true
  | c :: r =>
      match st with
      | Outside => true
      | Inside | Escaped => negb (c =? rbracket)%N
      end
      && closing_free (lex_step st c) r
  end.

(** *** Sample responses *)

Definition orders_json : string :=
  "{'name':'Orders','description':'d','endpoints':[{'path':'/o','method':'GET','purpose':'list'}],'build_in_house':true,'reason':'core'}".

Definition orders_spec : APISpec :=
  {| name := lit "Orders";
     description := lit "d";
     endpoints := [[(lit "path", PyStr (lit "/o"));
                    (lit "method", PyStr (lit "GET"));
                    (lit "purpose", PyStr (lit "list"))]];
     build_in_house := true;
     reason := lit "core" |}.

Definition overview : str := lit "Plan overview.

".

Definition orders_array : str := qlit ("[" ++ orders_json ++ "]").

(** The example of the specification: a plan and one record. *)
Definition plan_with_orders : str := overview ++ orders_array.





(** A record whose description has a closing bracket in it. *)
Definition bracket_array : str :=
  qlit "[{'name':'Orders','description':'see 2]','endpoints':[],'build_in_house':true,'reason':'core'}]".

Definition bracket_spec : APISpec :=
  {| name := lit "Orders";
     description := lit "see 2]";
     endpoints := [];
     build_in_house := true;
     reason := lit "core" |}.

(** A record whose endpoints are a list of numbers. *)
Definition numbers_array : str :=
  qlit "[{'name':'Orders','description':'d','endpoints':[1, 2],'build_in_house':true,'reason':'core'}]".

(** Brackets, but no marker. *)
Definition plan_without_array : str :=
  lit "Plan overview.

Build the [orders] API first.".

(** *** The prompts, as the specification describes them

    The text of each template with the four values in their places. *)

(** What stands for an optional field: the field when it is given and not
    empty, the words [Not specified] otherwise. *)
Definition specified (x : option str) : str :=
  match x with
  | None => lit "Not specified"
  | Some s => if str_eqb s [] then lit "Not specified" else s
  end.

Definition rendered_questions (mission company industry size : str) : str :=
  lit "
            You are ChatOPT, an expert in API design and software architecture. Your task is to ask follow-up questions to gather more information about the business before generating an API masterplan.
            
            Business Context:
            - Mission Statement/Operating Model: "
  ++ mission
  ++  lit "
            - Company Name: "
  ++ company
  ++  lit "
            - Industry: "
  ++ industry
  ++  lit "
            - Business Size: "
  ++ size
  ++  lit "
            
            Based on this information, generate 5-7 specific questions that will help you better understand:
            1. The core business processes
            2. The users/customers and their needs
            3. Existing systems and integrations
            4. Data handling requirements
            5. Scalability and performance expectations
            6. Security and compliance requirements
            
            Format your output as a JSON list of strings containing only the questions, without any introductory text.
            ".

Definition rendered_masterplan (mission company industry size : str) : str :=
  qlit "
            You are ChatOPT, an expert in API design and software architecture. Based on the business context below, create a comprehensive API masterplan.
            
            Business Context:
            - Mission Statement/Operating Model: "
  ++ mission
  ++  qlit "
            - Company Name: "
  ++ company
  ++  qlit "
            - Industry: "
  ++ industry
  ++  qlit "
            - Business Size: "
  ++ size
  ++  qlit "
            
            Generate a markdown OPT (Operating Process Technology) masterplan that includes:
            
            1. Executive Summary: A brief overview of the proposed API architecture.
            
            2. Core API Specifications:
               - For each core business function, define an API with:
                 - Name and description
                 - Key endpoints (routes, methods, purpose)
                 - Data models
                 - Whether it should be built in-house or integrated with third-party services (with reasoning)
            
            3. Integration Architecture:
               - How the APIs connect with each other
               - Authentication and security considerations
               - Data flows between systems
            
            4. Implementation Roadmap:
               - Prioritized list of APIs to develop
               - Estimated complexity for each
               - Dependencies between APIs
            
            5. Technical Considerations:
               - Scalability recommendations
               - Security best practices
               - Monitoring and observability suggestions
            
            Format your response with two parts:
            1. The full markdown content for the masterplan
            2. A structured JSON array of API specifications with the following format for each API:
               ```
               {
                 'name': 'API name',
                 'description': 'Brief description',
                 'endpoints': [
                   {
                     'path': '/example/path',
                     'method': 'GET|POST|PUT|DELETE',
                     'purpose': 'What this endpoint does'
                   }
                 ],
                 'build_in_house': true|false,
                 'reason': 'Reasoning for build vs integrate decision'
               }
               ```
            
            IMPORTANT: Make sure your JSON is valid and properly formatted.
            ".

(** *** The outline of a JSON text

    The text that the decoder reads as one value has a simple outline:
    characters that are neither quotes nor brackets, string literals, and
    bracketed outlines. *)

Definition plain (c : char) : bool :=
  negb (c =? dquote)%N && negb (c =? lbracket)%N && negb (c =? rbracket)%N.

(** A string literal after its opening quote, closing quote included. *)
Inductive literal : str -> Prop :=
| literal_end : literal [dquote]
| literal_char c b :
    (c =? dquote)%N = false -> (c =? backslash)%N = false ->
    literal b -> literal (c :: b)
| literal_escape e b : literal b -> literal (backslash :: e :: b).

Inductive outline : str -> Prop :=
| outline_nil : outline []
| outline_plain c t : plain c = true -> outline t -> outline (c :: t)
| outline_string b t : literal b -> outline t -> outline (dquote :: b ++ t)
| outline_array a t :
    outline a -> outline t -> outline (lbracket :: a ++ rbracket :: t).

(** The trimmed lines of a text that [keep] accepts. *)
Definition lines_of (keep : str -> bool) (s : str) : list str :=
  filter keep (map strip (split newline s)).

(** *** Further vocabulary *)

(** A line as the fallback of [generate_questions] returns it: not empty,
    trimmed, with no newline character (U+000A) in it, opening with no
    bracket and closing with none.  The code splits on the newline
    character only: a carriage return or another line separator can stand
    inside a line. *)
Definition clean (t : str) : Prop :=
  t <> []
  /\ strip t = t
  /\ ~ In newline t
  /\ startswith [lbracket] t = false
  /\ endswith [rbracket] t = false.


(** The opening brackets of a text minus its closing brackets. *)
Fixpoint balance (s : str) : Z :=
  match s with
  | [] => 0
  | c :: r =>
      ((if (c =? lbracket)%N then 1 else if (c =? rbracket)%N then -1 else 0)
       + balance r)%Z
  end.



(** ** The endpoints of [app.py]

    A handler either returns the body of its answer or raises an
    [HTTPException], which the framework turns into an answer with that
    status and detail: both are the reply of the endpoint.  [chat_opt] is
    the instance the module creates. *)

Module App.

Record OperatingModelRequest : Type := {
  mission_statement : str;
  company_name : option str;
  industry : option str;
  business_size : option str
}.

Inductive reply (A : Type) : Type :=
| Body (a : A)
| HTTPException (status_code : Z) (detail : str).
Arguments HTTPException {A}.

Section Endpoints.

Context {lib : Library}.
Variable chat_opt : ChatOPT.

(** [POST /generate_masterplan] *)
Definition generate_masterplan (request : OperatingModelRequest)
  : M (reply MasterplanResponse) :=
  try_except
    (result <- generate_masterplan chat_opt
                 (mission_statement request) (company_name request)
                 (industry request) (business_size request) ;;
     ret (Body result))
    Exception
    (fun e => ret (HTTPException 500 (exn_str e))).

(** [POST /ask_questions] *)
Definition ask_questions (request : OperatingModelRequest) : M (reply value) :=
  try_except
    (questions <- generate_questions chat_opt
                    (mission_statement request) (company_name request)
                    (industry request) (business_size request) ;;
     ret (Body (PyDict [(lit "questions", PyList questions)])))
    Exception
    (fun e => ret (HTTPException 500 (exn_str e))).

End Endpoints.

End App.

(** ** The client of [gradio_app.py]

    The functions behind the form.  They post to the endpoints through
    [requests]; what the network and the server answer is a parameter. *)

Module Gradio.

(** What [requests.post] returns: the status, the text of the body, and
    what [response.json()] gives, a value or an exception. *)
Record Response : Type := {
  status_code : Z;
  text : str;
  json : outcome value
}.

(** [requests.post(url, json=payload)] *)
Definition Post : Type := str -> value -> outcome Response.

(** What the interpreter decides and this file does not fix: the text an
    f-string writes for a value that is not a string, whether a float is
    zero, and the messages of its exceptions. *)
Class Interpreter : Type := {
  str_of : value -> str;
  str_of_str : forall s, str_of (PyStr s) = s;
  float_nonzero : str -> bool;
  no_attribute : value -> str;
  not_subscriptable : value -> str;
  cannot_add : value -> str
}.

(** An interpreter for the examples: it writes the name of the type. *)
#[refine] Instance naming : Interpreter := {|
  str_of v :=
    match v with
    | PyStr s => s
    | PyNone => lit "None"
    | PyBool true => lit "True"
    | PyBool false => lit "False"
    | PyInt _ => lit "<int>"
    | PyFloat l => l
    | PyList _ => lit "<list>"
    | PyDict _ => lit "<dict>"
    end;
  float_nonzero l := true;
  no_attribute _ := lit "object has no attribute 'get'";
  not_subscriptable _ := lit "object is not subscriptable";
  cannot_add _ := lit "unsupported operand type(s) for +="
|}.
Proof. reflexivity. Defined.

Definition API_URL : str := lit "http://localhost:8000".

Section Client.

Context {lib : Library} {py : Interpreter}.
Variable post : Post.

(** A library call, in a computation. *)
Definition call {A} (r : outcome A) : M A := fun w => (r, w).

(** [bool(v)] *)
Definition truthy (v : value) : bool :=
  match v with
  | PyNone => false
  | PyBool b => b
  | PyInt z => negb (z =? 0)%Z
  | PyFloat l => float_nonzero l
  | PyStr s => match s with [] => false | _ :: _ => true end
  | PyList l => match l with [] => false | _ :: _ => true end
  | PyDict d => match d with [] => false | _ :: _ => true end
  end.

(** [x if x else None] on an optional string, as a JSON value. *)
Definition or_None (x : option str) : value :=
  match x with
  | Some (c :: s) => PyStr (c :: s)
  | _ => PyNone
  end.

(** [data.get(key, default)] *)
Definition get (data : value) (key : str) (default : value) : M value :=
  match data with
  | PyDict d =>
      ret match dict_get key d with Some v => v | None => default end
  | _ => raise {| exn_cls := OtherException; exn_str := no_attribute data |}
  end.

(** [v[key]] for a string key: [KeyError] writes the key between
    apostrophes. *)
Definition getitem (v : value) (key : str) : M value :=
  match v with
  | PyDict d =>
      match dict_get key d with
      | Some x => ret x
      | None => raise {| exn_cls := KeyError; exn_str := lit "'" ++ key ++ lit "'" |}
      end
  | _ => raise {| exn_cls := TypeError; exn_str := not_subscriptable v |}
  end.

(** [target += text]: a string grows by the text, a list by the characters
    of the text. *)
Definition iadd (target : value) (text : str) : M value :=
  match target with
  | PyStr s => ret (PyStr (s ++ text))
  | PyList l => ret (PyList (l ++ map (fun c => PyStr [c]) text))
  | _ => raise {| exn_cls := TypeError; exn_str := cannot_add target |}
  end.

Fixpoint foldM {A S} (f : A -> S -> M S) (l : list A) (s : S) : M S :=
  match l with
  | [] => ret s
  | a :: l' => s' <- f a s ;; foldM f l' s'
  end.

(** The body of the loop over the endpoints of a specification. *)
Definition add_endpoint (endpoint markdown_content : value) : M value :=
  method <- getitem endpoint (lit "method") ;;
  path <- getitem endpoint (lit "path") ;;
  purpose <- getitem endpoint (lit "purpose") ;;
  iadd markdown_content
       (lit "- `" ++ str_of method ++ lit " " ++ str_of path ++ lit "`: "
        ++ str_of purpose ++ [newline]).

(** The body of the loop over the specifications. *)
Definition add_spec (spec markdown_content : value) : M value :=
  name <- getitem spec (lit "name") ;;
  markdown_content <- iadd markdown_content (lit "### " ++ str_of name ++ [newline]) ;;
  description <- getitem spec (lit "description") ;;
  markdown_content <- iadd markdown_content (str_of description ++ [newline; newline]) ;;
  markdown_content <- iadd markdown_content (lit "**Endpoints:**" ++ [newline]) ;;
  endpoints <- getitem spec (lit "endpoints") ;;
  endpoints <- iter endpoints ;;
  markdown_content <- foldM add_endpoint endpoints markdown_content ;;
  build_in_house <- getitem spec (lit "build_in_house") ;;
  markdown_content <-
    iadd markdown_content
         ([newline] ++ lit "**Build In-House:** "
          ++ (if truthy build_in_house then lit "Yes" else lit "No") ++ [newline]) ;;
  reason <- getitem spec (lit "reason") ;;
  iadd markdown_content (lit "**Reason:** " ++ str_of reason ++ [newline; newline]).

Definition payload (mission_statement : str)
           (company_name industry business_size : option str) : value :=
  PyDict [(lit "mission_statement", PyStr mission_statement);
          (lit "company_name", or_None company_name);
          (lit "industry", or_None industry);
          (lit "business_size", or_None business_size)].

(** [generate_masterplan] of the form. *)
Definition generate_masterplan (mission_statement : str)
           (company_name industry business_size : option str) (answers : str)
  : M value :=
  try_except
    (let full_mission :=
       mission_statement ++ [newline; newline] ++ lit "Additional Information:"
       ++ [newline] ++ answers in
     response <- call (post (API_URL ++ lit "/generate_masterplan")
                            (payload full_mission company_name industry business_size)) ;;
     if (status_code response =? 200)%Z then
       data <- call (json response) ;;
       markdown_content <- get data (lit "markdown_content") (PyStr []) ;;
       api_specs <- get data (lit "api_specs") (PyList []) ;;
       if truthy api_specs then
         markdown_content <-
           iadd markdown_content
                ([newline; newline] ++ lit "## API Specifications" ++ [newline; newline]) ;;
         specs <- iter api_specs ;;
         foldM add_spec specs markdown_content
       else ret markdown_content
     else ret (PyStr (lit "Error: " ++ text response)))
    Exception
    (fun e => ret (PyStr (lit "Error generating masterplan: " ++ exn_str e))).

(** [ask_questions] of the form: no guard around the call. *)
Definition ask_questions (mission_statement : str)
           (company_name industry business_size : option str) : M value :=
  response <- call (post (API_URL ++ lit "/ask_questions")
                         (payload mission_statement company_name industry business_size)) ;;
  if (status_code response =? 200)%Z then
    data <- call (json response) ;;
    get data (lit "questions") (PyList [])
  else ret (PyList [PyStr (lit "Error: Could not generate questions. Please try again.")]).

(** [enumerate(l)] *)
Fixpoint enumerate_from {A} (start : nat) (l : list A) : list (nat * A) :=
  match l with
  | [] => []
  | a :: l' => (start, a) :: enumerate_from (S start) l'
  end.

Definition enumerate {A} (l : list A) : list (nat * A) := enumerate_from 0 l.

(** [sep.join(l)] *)
Fixpoint join (sep : str) (l : list str) : str :=
  match l with
  | [] => []
  | [x] => x
  | x :: l' => x ++ sep ++ join sep l'
  end.

(** [str(n)] for an index: its decimal digits. *)
Fixpoint uint_str (d : Decimal.uint) : str :=
  match d with
  | Decimal.Nil => []
  | Decimal.D0 d' => 48%N :: uint_str d'
  | Decimal.D1 d' => 49%N :: uint_str d'
  | Decimal.D2 d' => 50%N :: uint_str d'
  | Decimal.D3 d' => 51%N :: uint_str d'
  | Decimal.D4 d' => 52%N :: uint_str d'
  | Decimal.D5 d' => 53%N :: uint_str d'
  | Decimal.D6 d' => 54%N :: uint_str d'
  | Decimal.D7 d' => 55%N :: uint_str d'
  | Decimal.D8 d' => 56%N :: uint_str d'
  | Decimal.D9 d' => 57%N :: uint_str d'
  end.

Definition int_str (n : nat) : str := uint_str (Nat.to_uint n).

(** [gr.update(visible=...)] *)
Inductive update : Type := Update (visible : bool).

(** The handler of the button that asks the questions: the group of the
    questions becomes visible, and its box gets the questions, numbered
    from 1, one on each line. *)
Definition ask_btn_click (m : str) (c i b : option str) : M (update * str) :=
  questions <- ask_questions m c i b ;;
  questions <- iter questions ;;
  ret (Update true,
       join [newline]
            (map (fun iq => int_str (fst iq + 1) ++ lit ". " ++ str_of (snd iq))
                 (enumerate questions))).

End Client.

(** The JSON object of a [MasterplanResponse], as the endpoint answers
    it. *)
Definition spec_json (a : APISpec) : value :=
  PyDict [(lit "name", PyStr (name a));
          (lit "description", PyStr (description a));
          (lit "endpoints", PyList (map PyDict (endpoints a)));
          (lit "build_in_house", PyBool (build_in_house a));
          (lit "reason", PyStr (reason a))].

Definition masterplan_json (r : MasterplanResponse) : value :=
  PyDict [(lit "markdown_content", PyStr (markdown_content r));
          (lit "api_specs", PyList (map spec_json (api_specs r)));
          (lit "questions",
           match questions r with
           | Some qs => PyList (map PyStr qs)
           | None => PyNone
           end)].

End Gradio.

(** *** What the form shows for a masterplan *)

Module Shown.

Section Shown.

Context {py : Gradio.Interpreter}.

(** What an f-string writes for the value of [key] in an endpoint. *)
Definition field (key : string) (endpoint : list (str * value)) : str :=
  match dict_get (lit key) endpoint with
  | Some v => Gradio.str_of v
  | None => []
  end.

(** An endpoint with a method, a path and a purpose. *)
Definition complete (endpoint : list (str * value)) : bool :=
  match dict_get (lit "method") endpoint, dict_get (lit "path") endpoint,
        dict_get (lit "purpose") endpoint with
  | Some _, Some _, Some _ => true
  | _, _, _ => false
  end.

(** The first of the three keys that an endpoint lacks. *)
Definition first_missing (endpoint : list (str * value)) : str :=
  match dict_get (lit "method") endpoint, dict_get (lit "path") endpoint with
  | None, _ => lit "method"
  | Some _, None => lit "path"
  | Some _, Some _ => lit "purpose"
  end.

Definition endpoint_line (endpoint : list (str * value)) : str :=
  lit "- `" ++ field "method" endpoint ++ lit " " ++ field "path" endpoint
  ++ lit "`: " ++ field "purpose" endpoint ++ [newline].

Definition section (a : APISpec) : str :=
  lit "### " ++ name a ++ [newline]
  ++ description a ++ [newline; newline]
  ++ lit "**Endpoints:**" ++ [newline]
  ++ List.concat (map endpoint_line (endpoints a))
  ++ [newline] ++ lit "**Build In-House:** "
  ++ (if build_in_house a then lit "Yes" else lit "No") ++ [newline]
  ++ lit "**Reason:** " ++ reason a ++ [newline; newline].

(** The text for a masterplan: its markdown and, when it has
    specifications, a heading and one section for each. *)
Definition rendered (r : MasterplanResponse) : str :=
  markdown_content r
  ++ match api_specs r with
     | [] => []
     | specs =>
         [newline; newline] ++ lit "## API Specifications" ++ [newline; newline]
         ++ List.concat (map section specs)
     end.

End Shown.

End Shown.

(** A server that answers every request with status 200 and the JSON
    object of [r]. *)
Definition answering_plan (r : MasterplanResponse) : Gradio.Post :=
  fun _ _ =>
    Return {| Gradio.status_code := 200; Gradio.text := [];
              Gradio.json := Return (Gradio.masterplan_json r) |}.

(** A specification whose second endpoint has no purpose. *)
Definition billing_spec : APISpec :=
  {| name := lit "Billing";
     description := lit "d";
     endpoints := [[(lit "method", PyStr (lit "GET"));
                    (lit "path", PyStr (lit "/b"));
                    (lit "purpose", PyStr (lit "list"))];
                   [(lit "method", PyStr (lit "POST"));
                    (lit "path", PyStr (lit "/b"))]];
     build_in_house := false;
     reason := lit "buy" |}.

(** A server that answers every request with status 200 and an object
    whose [questions] are the strings [qs]. *)
Definition answering_questions (qs : list str) : Gradio.Post :=
  fun _ _ =>
    Return {| Gradio.status_code := 200; Gradio.text := [];
              Gradio.json := Return (PyDict [(lit "questions", PyList (map PyStr qs))]) |}.

(* DEFINITIONS END *)

(** * Properties *)

Unset Implicit Arguments.

(** ** Computations *)

Lemma bind_Return {A B} (m : M A) (k : A -> M B) w a w' :
  m w = (Return a, w') -> bind m k w = k a w'.
Proof. unfold bind; intros ->; reflexivity. Qed.

Lemma bind_Raise {A B} (m : M A) (k : A -> M B) w e w' :
  m w = (Raise e, w') -> bind m k w = (Raise e, w').
Proof. unfold bind; intros ->; reflexivity. Qed.

Lemma try_Return {A} (m : M A) c h w a w' :
  m w = (Return a, w') -> try_except m c h w = (Return a, w').
Proof. unfold try_except; intros ->; reflexivity. Qed.

Lemma try_caught {A} (m : M A) c h w e w' :
  m w = (Raise e, w') -> c e = true -> try_except m c h w = h e w'.
Proof. unfold try_except; intros -> ->; reflexivity. Qed.

Lemma try_uncaught {A} (m : M A) c h w e w' :
  m w = (Raise e, w') -> c e = false -> try_except m c h w = (Raise e, w').
Proof. unfold try_except; intros -> ->; reflexivity. Qed.

Section Questions.

Context {lib : Library}.

(** What the inner [try] of [generate_questions] makes of a response: it
    never raises and leaves the world as it is. *)
Lemma parse_questions_eval response w :
  parse_questions response w =
  (Return match json_loads response with
          | Some (PyList l) => l
          | Some _ => no_questions
          | None => match question_lines response with
                    | [] => no_questions
                    | lines => map PyStr lines
                    end
          end, w).
Proof.
  unfold parse_questions, try_except, bind, loads.
  destruct (json_loads response) as [v|]; cbn.
  - destruct v; reflexivity.
  - destruct (question_lines response); reflexivity.
Qed.

Lemma generate_questions_answered self ms cn ind bs w response w1 :
  run (questions_chain self) (context ms cn ind bs) w = (Return response, w1) ->
  generate_questions self ms cn ind bs w = parse_questions response w1.
Proof.
  intros Hrun. unfold generate_questions.
  rewrite parse_questions_eval.
  apply try_Return. erewrite bind_Return by exact Hrun.
  apply parse_questions_eval.
Qed.

Lemma generate_questions_failed self ms cn ind bs w e w1 :
  run (questions_chain self) (context ms cn ind bs) w = (Raise e, w1) ->
  fst (generate_questions self ms cn ind bs w) = Return questions_error.
Proof.
  intros Hrun. unfold generate_questions.
  erewrite try_caught; [| eapply bind_Raise, Hrun | reflexivity].
  reflexivity.
Qed.

End Questions.

(** ** Text *)

Section TextFacts.

Lemma str_eqb_eq a b : str_eqb a b = true <-> a = b.
Proof.
  revert b; induction a as [|x a IH]; intros [|y b]; cbn; try easy.
  rewrite andb_true_iff, N.eqb_eq, IH. split.
  - intros [-> ->]; reflexivity.
  - intros [= -> ->]; auto.
Qed.

Lemma str_eqb_refl a : str_eqb a a = true.
Proof. apply str_eqb_eq; reflexivity. Qed.

Lemma strip_prefix_app p s rest : strip_prefix p s = Some rest <-> s = p ++ rest.
Proof.
  revert s; induction p as [|x p IH]; intros s; cbn.
  - split; [intros [= ->] | intros ->]; reflexivity.
  - destruct s as [|y s]; [easy|].
    destruct (N.eqb_spec x y) as [->|Hxy].
    + rewrite IH. split; [intros -> | intros [= ->]]; reflexivity.
    + split; [easy | intros [= -> _]; now elim Hxy].
Qed.

(** [lstrip] removes a run of whitespace and stops at the first character
    that is not. *)
Lemma lstrip_split s :
  exists w, s = w ++ lstrip s /\ forallb isspace w = true.
Proof.
  induction s as [|c s (w & Hs & Hw)]; cbn.
  - exists []; auto.
  - destruct (isspace c) eqn:Hc.
    + exists (c :: w); cbn. rewrite Hc, Hw. split; [f_equal; exact Hs | reflexivity].
    + exists []; auto.
Qed.

Lemma lstrip_run w c s :
  forallb isspace w = true -> isspace c = false -> lstrip (w ++ c :: s) = c :: s.
Proof.
  intros Hw Hc; induction w as [|x w IH]; cbn in *.
  - now rewrite Hc.
  - apply andb_true_iff in Hw as [-> Hw]. auto.
Qed.

Lemma lstrip_snoc c l :
  isspace c = true ->
  lstrip (l ++ [c]) = match lstrip l with [] => [] | _ :: _ => lstrip l ++ [c] end.
Proof.
  intros Hc; induction l as [|x l IH]; cbn.
  - now rewrite Hc.
  - destruct (isspace x); [exact IH | reflexivity].
Qed.

Lemma rstrip_snoc c l : isspace c = true -> rstrip (l ++ [c]) = rstrip l.
Proof.
  intros Hc; unfold rstrip. rewrite rev_app_distr; cbn. now rewrite Hc.
Qed.

Lemma strip_cons c l : isspace c = true -> strip (c :: l) = strip l.
Proof. intros Hc; unfold strip; cbn. now rewrite Hc. Qed.

Lemma strip_snoc c l : isspace c = true -> strip (l ++ [c]) = strip l.
Proof.
  intros Hc; unfold strip. rewrite (lstrip_snoc _ _ Hc).
  destruct (lstrip l) eqn:E; [reflexivity|].
  now rewrite rstrip_snoc.
Qed.

Lemma split_nonempty sep s : split sep s <> [].
Proof.
  destruct s as [|c s]; cbn; [easy|].
  destruct (N.eqb c sep); [easy|]. destruct (split sep s); easy.
Qed.

(** A separator at the end opens one more, empty, field; any other
    character goes to the last field. *)
Lemma split_snoc sep s c :
  if N.eqb c sep then split sep (s ++ [c]) = split sep s ++ [[]]
  else exists ls l, split sep s = ls ++ [l]
                    /\ split sep (s ++ [c]) = ls ++ [l ++ [c]].
Proof.
  destruct (N.eqb c sep) eqn:Hc.
  - induction s as [|x s IH]; cbn.
    + now rewrite Hc.
    + destruct (N.eqb x sep); [now rewrite IH|].
      rewrite IH. destruct (split sep s) eqn:E; [now elim (split_nonempty _ _ E)|].
      reflexivity.
  - induction s as [|x s (ls & l & Hs & Hsc)]; cbn.
    + rewrite Hc. exists [], []; auto.
    + rewrite Hs, Hsc. destruct (N.eqb x sep).
      * exists ([] :: ls), l; auto.
      * destruct ls as [|l0 ls]; cbn.
        -- exists [], (x :: l); auto.
        -- exists ((x :: l0) :: ls), l; auto.
Qed.

Variable keep : str -> bool.
Hypothesis keep_nil : keep [] = false.

Lemma lines_of_cons c s : isspace c = true -> lines_of keep (c :: s) = lines_of keep s.
Proof.
  intros Hc; unfold lines_of; cbn [split].
  destruct (N.eqb c newline).
  - cbn. change (strip []) with (@nil char). now rewrite keep_nil.
  - destruct (split newline s) as [|l ls] eqn:E; [now elim (split_nonempty _ _ E)|].
    cbn [map]. now rewrite (strip_cons _ _ Hc).
Qed.

Lemma lines_of_snoc c s : isspace c = true -> lines_of keep (s ++ [c]) = lines_of keep s.
Proof.
  intros Hc; unfold lines_of.
  pose proof (split_snoc newline s c) as H.
  destruct (N.eqb c newline).
  - rewrite H, map_app, filter_app; cbn.
    change (strip []) with (@nil char). rewrite keep_nil. apply app_nil_r.
  - destruct H as (ls & l & -> & ->).
    rewrite !map_app; cbn [map]. now rewrite (strip_snoc _ _ Hc).
Qed.

Lemma lines_of_lstrip s : lines_of keep (lstrip s) = lines_of keep s.
Proof.
  induction s as [|c s IH]; [reflexivity|]. cbn [lstrip].
  destruct (isspace c) eqn:Hc; [|reflexivity].
  now rewrite (lines_of_cons _ _ Hc).
Qed.

Lemma lines_of_rstrip s : lines_of keep (rstrip s) = lines_of keep s.
Proof.
  unfold rstrip. rewrite <- (rev_involutive s) at 2.
  induction (rev s) as [|c t IH]; [reflexivity|]. cbn [lstrip rev].
  destruct (isspace c) eqn:Hc; [|reflexivity].
  now rewrite IH, (lines_of_snoc _ _ Hc).
Qed.

(** Trimming the whole text first changes no line that is kept. *)
Lemma lines_of_strip s : lines_of keep (strip s) = lines_of keep s.
Proof. unfold strip. now rewrite lines_of_rstrip, lines_of_lstrip. Qed.

End TextFacts.

Lemma map_filter_comm {A B} (f : A -> B) (p : B -> bool) (l : list A) :
  map f (filter (fun a => p (f a)) l) = filter p (map f l).
Proof.
  induction l as [|a l IH]; cbn; [reflexivity|].
  destruct (p (f a)); cbn; now rewrite IH.
Qed.

(** The fallback of [generate_questions] keeps the lines of the response
    itself. *)
Lemma question_lines_kept response : question_lines response = kept_lines response.
Proof.
  unfold question_lines, kept_lines.
  set (keep := fun t : str =>
         negb (str_eqb t []) && negb (startswith [lbracket] t)
         && negb (endswith [rbracket] t)).
  rewrite (filter_ext _ (fun line => keep (strip line))).
  2:{ intros line; unfold keep. destruct (strip line); reflexivity. }
  rewrite (map_filter_comm strip keep), (map_filter_comm strip keep).
  apply (lines_of_strip keep). reflexivity.
Qed.

(** ** [generate_questions] *)

Section QuestionClaims.

Context {lib : Library}.
Variables (self : ChatOPT) (ms : str) (cn ind bs : option str) (w w1 : world).
Variable response : str.
Hypothesis answered :
  run (questions_chain self) (context ms cn ind bs) w = (Return response, w1).

(** C7. When the response parses as a JSON list, [generate_questions]
    returns that list as it is, whatever its elements are. *)
Theorem questions_json_list_unchanged l :
  json_loads response = Some (PyList l) ->
  generate_questions self ms cn ind bs w = (Return l, w1).
Proof.
  intros Hl. rewrite (generate_questions_answered _ _ _ _ _ _ _ _ answered).
  rewrite parse_questions_eval, Hl. reflexivity.
Qed.

(** C10. When the response is valid JSON but not a list, the result is the
    list whose one element is the text [Could not generate questions.
    Please try again.]; the lines of the response are not looked at. *)
Theorem questions_json_not_list v :
  json_loads response = Some v ->
  (forall l, v <> PyList l) ->
  generate_questions self ms cn ind bs w
  = (Return [PyStr (lit "Could not generate questions. Please try again.")], w1).
Proof.
  intros Hv Hnot. rewrite (generate_questions_answered _ _ _ _ _ _ _ _ answered).
  rewrite parse_questions_eval, Hv.
  destruct v; try reflexivity. now elim (Hnot l).
Qed.


End QuestionClaims.

Lemma questions_json_list_unchanged_witness :
  fst (generate_questions (lib := strict) (answering (qlit "['Who are the users?', 7]"))
                          (lit "We sell shoes") None None None fresh)
  = Return [PyStr (lit "Who are the users?"); PyInt 7].
Proof.
  rewrite (questions_json_list_unchanged (lib := strict)
             (answering (qlit "['Who are the users?', 7]"))
             (lit "We sell shoes") None None None fresh
             (snd (run (questions_chain (answering (qlit "['Who are the users?', 7]")))
                       (context (lit "We sell shoes") None None None) fresh))
             (qlit "['Who are the users?', 7]")
             ltac:(vm_compute; reflexivity)
             [PyStr (lit "Who are the users?"); PyInt 7]
             ltac:(vm_compute; reflexivity)).
  reflexivity.
Defined.

Lemma questions_json_not_list_witness :
  fst (generate_questions (lib := strict) (answering (qlit "{'questions': ['Who?']}"))
                          (lit "We sell shoes") None None None fresh)
  = Return [PyStr (lit "Could not generate questions. Please try again.")]
  /\ kept_lines (qlit "{'questions': ['Who?']}") = [qlit "{'questions': ['Who?']}"].
Proof.
  split; [| vm_compute; reflexivity].
  rewrite (questions_json_not_list (lib := strict)
             (answering (qlit "{'questions': ['Who?']}"))
             (lit "We sell shoes") None None None fresh
             (snd (run (questions_chain (answering (qlit "{'questions': ['Who?']}")))
                       (context (lit "We sell shoes") None None None) fresh))
             (qlit "{'questions': ['Who?']}")
             ltac:(vm_compute; reflexivity)
             (PyDict [(lit "questions", PyList [PyStr (lit "Who?")])])
             ltac:(vm_compute; reflexivity)
             ltac:(intros l; discriminate)).
  reflexivity.
Defined.



(** C3. On the response [[]], a JSON list, [generate_questions] returns the
    empty list: the emptiness test of the fallback has no counterpart on
    the JSON path. *)
Theorem questions_empty_json_list :
  json_loads (lit "[]") = Some (PyList [])
  /\ generate_questions (lib := strict) (answering (lit "[]"))
                        (lit "We sell shoes") None None None fresh
     = (Return [],
        snd (run (questions_chain (answering (lit "[]")))
                 (context (lit "We sell shoes") None None None) fresh)).
Proof. split; vm_compute; reflexivity. Qed.

(** ** The marker of the specification array *)

Lemma match_here_marker s : match_here s = true <-> marker s.
Proof.
  unfold match_here, marker. split.
  - destruct s as [|c r]; [easy|].
    rewrite andb_true_iff, N.eqb_eq. intros [-> H].
    destruct (lstrip_split r) as (w1 & Hr & Hw1).
    destruct (lstrip r) as [|c' r'] eqn:E1; [easy|].
    apply andb_true_iff in H as [Hc' H]. apply N.eqb_eq in Hc' as ->.
    destruct (lstrip_split r') as (w2 & Hr' & Hw2).
    unfold startswith in H.
    destruct (strip_prefix (qlit "'name':") (lstrip r')) as [rest|] eqn:E2; [|easy].
    apply strip_prefix_app in E2.
    exists w1, w2, rest. repeat split; auto.
    cbn [app]. f_equal. rewrite Hr at 1. f_equal. f_equal.
    rewrite Hr' at 1. now rewrite E2.
  - intros (w1 & w2 & rest & -> & Hw1 & Hw2). cbn [app].
    rewrite N.eqb_refl. cbn [andb].
    rewrite (lstrip_run w1 lbrace _ Hw1 eq_refl).
    rewrite N.eqb_refl. cbn [andb].
    change (qlit "'name':" ++ rest) with (dquote :: tl (qlit "'name':") ++ rest).
    rewrite (lstrip_run w2 dquote _ Hw2 eq_refl).
    reflexivity.
Qed.

(** [re.search] finds nothing exactly when no suffix of the text starts
    with the marker. *)
Lemma re_search_None s :
  re_search s = None <-> (forall pre post, s = pre ++ post -> ~ marker post).
Proof.
  induction s as [|c s IH]; cbn [re_search].
  - split; [|reflexivity]. intros _ pre post H.
    symmetry in H. apply app_eq_nil in H as [_ ->].
    rewrite <- match_here_marker. discriminate.
  - destruct (match_here (c :: s)) eqn:E.
    + split; [easy|]. intros H. exfalso.
      apply (H [] (c :: s) eq_refl). now apply match_here_marker.
    + destruct (re_search s) as [i|]; cbn.
      * split; [easy|]. intros H.
        assert (Hs : Some i = None); [|easy].
        apply IH. intros pre post Hpp. apply (H (c :: pre) post). now rewrite Hpp.
      * split; [|reflexivity]. intros _ [|x pre] post Hpp.
        -- cbn in Hpp. subst post. rewrite <- match_here_marker. now rewrite E.
        -- injection Hpp as -> Hpp. destruct IH as [IH _]. now apply (IH eq_refl pre).
Qed.

(** [re.search] returns the start of the leftmost marker. *)
Lemma re_search_earliest md arr :
  earliest_marker md arr -> re_search (md ++ arr) = Some (List.length md).
Proof.
  induction md as [|c md IH]; intros [Harr Hfirst].
  - cbn [app List.length]. apply match_here_marker in Harr.
    destruct arr; [discriminate Harr|]. cbn [re_search]. now rewrite Harr.
  - cbn [app re_search List.length].
    destruct (match_here (c :: md ++ arr)) eqn:E.
    + exfalso. apply (Hfirst [] (c :: md ++ arr) eq_refl); [cbn; lia|].
      now apply match_here_marker.
    + rewrite IH; [reflexivity|]. split; [exact Harr|].
      intros pre post Hpp Hlen. apply (Hfirst (c :: pre) post).
      * cbn. now rewrite Hpp.
      * cbn. lia.
Qed.

(** ** [generate_masterplan] *)

Section Masterplan.

Context {lib : Library}.

Lemma loads_eval doc w :
  loads doc w
  = (match json_loads doc with
     | Some v => Return v
     | None => Raise (error JSONDecodeError (Undecodable doc))
     end, w).
Proof. unfold loads. destruct (json_loads doc); reflexivity. Qed.

(** What [generate_masterplan] returns once the chain has answered: the
    result of the inner [try] body, the response itself when that body
    raises a [ValueError], the error text for any other exception. *)
Lemma generate_masterplan_answered self ms cn ind bs w response w1 :
  run (masterplan_chain self) (context ms cn ind bs) w = (Return response, w1) ->
  fst (generate_masterplan self ms cn ind bs w)
  = Return match fst (find_api_specs response response [] w1) with
           | Return r => r
           | Raise e =>
               if is_ValueError e then MasterplanResponse_new response []
               else masterplan_error e
           end.
Proof.
  intros Hrun. unfold generate_masterplan, parse_masterplan, try_except, bind.
  rewrite Hrun.
  destruct (find_api_specs response response [] w1) as [[r|e] w2]; cbn [fst].
  - reflexivity.
  - destruct (is_ValueError e); reflexivity.
Qed.

Lemma generate_masterplan_failed self ms cn ind bs w e w1 :
  run (masterplan_chain self) (context ms cn ind bs) w = (Raise e, w1) ->
  fst (generate_masterplan self ms cn ind bs w) = Return (masterplan_error e).
Proof.
  intros Hrun. unfold generate_masterplan, try_except, bind.
  rewrite Hrun. reflexivity.
Qed.

(** The construction of the specifications of a list: all of them, or the
    exception of the first element that has none. *)
Lemma mapM_APISpec_new_all l specs w :
  Forall2 (fun v a => forall w', APISpec_new v w' = (Return a, w')) l specs ->
  mapM APISpec_new l w = (Return specs, w).
Proof.
  intros H; revert w; induction H as [|v a l specs Hv _ IH]; intros w; cbn.
  - reflexivity.
  - unfold bind. rewrite Hv, IH. reflexivity.
Qed.

Lemma mapM_APISpec_new_first pre v post specs e w :
  Forall2 (fun v a => forall w', APISpec_new v w' = (Return a, w')) pre specs ->
  (forall w', APISpec_new v w' = (Raise e, w')) ->
  mapM APISpec_new (pre ++ v :: post) w = (Raise e, w).
Proof.
  intros H Hv; revert w; induction H as [|x a l specs Hx _ IH]; intros w; cbn.
  - unfold bind. rewrite Hv. reflexivity.
  - unfold bind. rewrite Hx. unfold bind in IH. rewrite IH. reflexivity.
Qed.

Lemma APISpec_new_record d w :
  APISpec_new (PyDict d) w
  = (match APISpec_validate d with
     | Some a => Return a
     | None => Raise (error ValidationError (Invalid d))
     end, w).
Proof. cbn. destruct (APISpec_validate d); reflexivity. Qed.



End Masterplan.

Section MasterplanClaims.

Context {lib : Library}.
Variables (self : ChatOPT) (ms : str) (cn ind bs : option str) (w w1 : world).
Variable response : str.
Hypothesis answered :
  run (masterplan_chain self) (context ms cn ind bs) w = (Return response, w1).

(** C5. When no position of the response starts the marker (an opening
    bracket, an opening brace and the key [name] with its colon, whitespace
    allowed in between), [generate_masterplan] returns a result whose
    [markdown_content] is the response as it is, not trimmed, and whose
    [api_specs] is the empty list; it prints nothing. *)
Theorem masterplan_without_marker :
  (forall pre post, response = pre ++ post -> ~ marker post) ->
  exists r,
    generate_masterplan self ms cn ind bs w = (Return r, w1)
    /\ markdown_content r = response
    /\ api_specs r = []
    /\ questions r = None.
Proof.
  intros Hno. apply re_search_None in Hno.
  exists (MasterplanResponse_new response []).
  split; [|split; [|split]; reflexivity].
  unfold generate_masterplan, parse_masterplan, find_api_specs, try_except, bind.
  rewrite answered, Hno. reflexivity.
Qed.



End MasterplanClaims.

(** C6. Neither operation raises: each returns a value from every state of
    the world.  When the call of the chain raises, [generate_questions]
    returns the one-element list with the fixed error message; when the
    call of the chain raises, or the body of the inner [try] raises an
    exception that is not a [ValueError], [generate_masterplan] returns a
    result whose [markdown_content] is the text that an error occurred
    followed by the message of the exception, and whose [api_specs] is the
    empty list. *)
Theorem operations_never_raise {lib : Library} self ms cn ind bs w :
  (exists qs w', generate_questions self ms cn ind bs w = (Return qs, w'))
  /\ (exists r w', generate_masterplan self ms cn ind bs w = (Return r, w'))
  /\ (forall e w1,
         run (questions_chain self) (context ms cn ind bs) w = (Raise e, w1) ->
         fst (generate_questions self ms cn ind bs w)
         = Return [PyStr (lit "An error occurred while generating questions. Please try again.")])
  /\ (forall e w1,
         run (masterplan_chain self) (context ms cn ind bs) w = (Raise e, w1) ->
         exists r,
           fst (generate_masterplan self ms cn ind bs w) = Return r
           /\ markdown_content r
              = lit "An error occurred while generating the masterplan: " ++ exn_str e
           /\ api_specs r = []
           /\ questions r = None)
  /\ (forall response w1 e w2,
         run (masterplan_chain self) (context ms cn ind bs) w
         = (Return response, w1) ->
         find_api_specs response response [] w1 = (Raise e, w2) ->
         is_ValueError e = false ->
         exists r,
           fst (generate_masterplan self ms cn ind bs w) = Return r
           /\ markdown_content r
              = lit "An error occurred while generating the masterplan: " ++ exn_str e
           /\ api_specs r = []
           /\ questions r = None).
Proof.
  split; [|split; [|split; [|split]]].
  - unfold generate_questions, try_except, Exception.
    destruct (bind _ _ w) as [[qs|e] w']; [eauto|]. do 2 eexists. reflexivity.
  - unfold generate_masterplan, try_except, Exception.
    destruct (bind _ _ w) as [[r|e] w']; [eauto|]. do 2 eexists. reflexivity.
  - intros e w1 Hrun. exact (generate_questions_failed _ _ _ _ _ _ _ _ Hrun).
  - intros e w1 Hrun. exists (masterplan_error e).
    split; [|split; [|split]; reflexivity].
    exact (generate_masterplan_failed _ _ _ _ _ _ _ _ Hrun).
  - intros response w1 e w2 Hrun Hraise He. exists (masterplan_error e).
    split; [|split; [|split]; reflexivity].
    rewrite (generate_masterplan_answered _ _ _ _ _ _ _ _ Hrun), Hraise.
    cbn [fst]. now rewrite He.
Qed.

Lemma masterplan_without_marker_witness :
  exists r,
    generate_masterplan (lib := strict) (answering plan_without_array)
                        (lit "We sell shoes") None None None fresh
    = (Return r,
       snd (run (masterplan_chain (answering plan_without_array))
                (context (lit "We sell shoes") None None None) fresh))
    /\ markdown_content r = lit "Plan overview.

Build the [orders] API first."
    /\ api_specs r = []
    /\ questions r = None.
Proof.
  exact (masterplan_without_marker (lib := strict) (answering plan_without_array)
           (lit "We sell shoes") None None None fresh
           (snd (run (masterplan_chain (answering plan_without_array))
                     (context (lit "We sell shoes") None None None) fresh))
           plan_without_array
           ltac:(vm_compute; reflexivity)
           ltac:(apply re_search_None; vm_compute; reflexivity)).
Defined.





Lemma operations_never_raise_witness :
  fst (generate_questions (lib := strict) (failing (lit "timed out"))
                          (lit "We sell shoes") None None None fresh)
  = Return [PyStr (lit "An error occurred while generating questions. Please try again.")]
  /\ exists r,
       fst (generate_masterplan (lib := strict) (failing (lit "timed out"))
                                (lit "We sell shoes") None None None fresh)
       = Return r
       /\ markdown_content r
          = lit "An error occurred while generating the masterplan: timed out"
       /\ api_specs r = []
       /\ questions r = None.
Proof.
  destruct (operations_never_raise (lib := strict) (failing (lit "timed out"))
              (lit "We sell shoes") None None None fresh)
    as (_ & _ & Hq & Hm & _).
  split.
  - apply (Hq {| exn_cls := OtherException; exn_str := lit "timed out" |}
              (snd (run (questions_chain (failing (lit "timed out")))
                        (context (lit "We sell shoes") None None None) fresh))).
    vm_compute; reflexivity.
  - apply (Hm {| exn_cls := OtherException; exn_str := lit "timed out" |}
              (snd (run (masterplan_chain (failing (lit "timed out")))
                        (context (lit "We sell shoes") None None None) fresh))).
    vm_compute; reflexivity.
Defined.

(** ** The prompts *)

Lemma or_specified x : or_ x (lit "Not specified") = specified x.
Proof. destruct x as [[|c s]|]; reflexivity. Qed.

Lemma vformat_questions ms a b c :
  vformat questions_template None
          [(lit "mission_statement", ms); (lit "company_name", a);
           (lit "industry", b); (lit "business_size", c)]
  = inr (rendered_questions ms a b c).
Proof. vm_compute. reflexivity. Qed.

Lemma vformat_masterplan ms a b c :
  vformat masterplan_template None
          [(lit "mission_statement", ms); (lit "company_name", a);
           (lit "industry", b); (lit "business_size", c)]
  = inr (rendered_masterplan ms a b c).
Proof. vm_compute. reflexivity. Qed.

Section Prompts.

Context {lib : Library}.

Lemma mapM_APISpec_new_world l w : snd (mapM APISpec_new l w) = w.
Proof.
  revert w; induction l as [|v l IH]; intros w; cbn; [reflexivity|].
  unfold bind.
  assert (Hv : snd (APISpec_new v w) = w).
  { unfold APISpec_new. destruct v; try reflexivity.
    destruct (APISpec_validate items); reflexivity. }
  destruct (APISpec_new v w) as [[a|e] w']; cbn in Hv; subst w'; [|reflexivity].
  specialize (IH w). destruct (mapM APISpec_new l w) as [[specs|e] w'];
    cbn in IH; subst w'; reflexivity.
Qed.

(** The body of the inner [try] of [generate_masterplan] neither sends nor
    prints. *)
Lemma find_api_specs_world response m a w :
  snd (find_api_specs response m a w) = w.
Proof.
  unfold find_api_specs. destruct (re_search response) as [i|]; [|reflexivity].
  unfold bind. rewrite loads_eval.
  destruct (json_loads _) as [v|]; [|reflexivity].
  assert (Hv : snd (iter v w) = w) by (destruct v; reflexivity).
  destruct (iter v w) as [[l|e] w']; cbn in Hv; subst w'; [|reflexivity].
  pose proof (mapM_APISpec_new_world l w) as Hl.
  destruct (mapM APISpec_new l w) as [[specs|e] w']; cbn in Hl; subst w';
    reflexivity.
Qed.

(** C9. Each operation sends one prompt: the text of its template with the
    mission statement as it was given and, for the company name, the
    industry and the business size, the value given or, when the field is
    absent or empty, the words [Not specified]. *)
Theorem prompts_carry_not_specified model ms cn ind bs w :
  sent (snd (generate_questions (ChatOPT_init model) ms cn ind bs w))
  = sent w ++ [rendered_questions ms (specified cn) (specified ind) (specified bs)]
  /\ sent (snd (generate_masterplan (ChatOPT_init model) ms cn ind bs w))
     = sent w ++ [rendered_masterplan ms (specified cn) (specified ind) (specified bs)]
  /\ specified None = lit "Not specified"
  /\ specified (Some []) = lit "Not specified"
  /\ (forall c s, specified (Some (c :: s)) = c :: s).
Proof.
  split; [|split; [|repeat split]].
  - unfold generate_questions, try_except, bind, run, context.
    cbn [questions_chain ChatOPT_init prompt template chain_llm].
    rewrite vformat_questions, !or_specified.
    destruct (model _) as [response|e]; [|reflexivity].
    rewrite parse_questions_eval. reflexivity.
  - unfold generate_masterplan, parse_masterplan, try_except, bind, run, context.
    cbn [masterplan_chain ChatOPT_init prompt template chain_llm].
    rewrite vformat_masterplan, !or_specified.
    destruct (model _) as [response|e]; [|reflexivity].
    match goal with
    | |- context [find_api_specs ?r ?m ?a ?w0] =>
        pose proof (find_api_specs_world r m a w0) as Hw;
        destruct (find_api_specs r m a w0) as [[res|e] w']
    end; cbn in Hw; subst w'; [reflexivity|].
    destruct (is_ValueError e); reflexivity.
Qed.

End Prompts.

(** ** The bracket count over a decoded array

    Over the outline of a value the count of [generate_masterplan] can only
    return to where it started, unless it meets a closing bracket inside a
    string literal. *)

Lemma outline_app a b : outline a -> outline b -> outline (a ++ b).
Proof.
  intros Ha Hb; induction Ha; cbn [app].
  - exact Hb.
  - now apply outline_plain.
  - rewrite <- app_assoc. now apply outline_string.
  - rewrite <- app_assoc. cbn [app]. now apply outline_array.
Qed.

Lemma outline_run c t : forallb plain c = true -> outline t -> outline (c ++ t).
Proof.
  intros Hc Ht; induction c as [|x c IH]; cbn in *; [exact Ht|].
  apply andb_true_iff in Hc as [Hx Hc]. apply outline_plain; auto.
Qed.

Lemma outline_plain_run c : forallb plain c = true -> outline c.
Proof.
  intros Hc. rewrite <- (app_nil_r c). apply outline_run; [exact Hc | constructor].
Qed.

Lemma outline_brackets a : outline a -> outline (lbracket :: a ++ [rbracket]).
Proof. intros Ha. apply outline_array; [exact Ha | constructor]. Qed.

(** Over a string literal without closing bracket the count does not go
    down and the loop does not break. *)
Lemma literal_count b :
  literal b ->
  forall t d i,
    closing_free Inside (b ++ t) = true ->
    exists d',
      (d <= d')%Z
      /\ closing_bracket (b ++ t) d i = closing_bracket t d' (i + List.length b)
      /\ closing_free Outside t = true.
Proof.
  induction 1 as [|c b Hq Hb _ IH|e b _ IH]; intros t d i Hfree.
  - exists d. cbn in *. rewrite Nat.add_1_r. repeat split; [lia | exact Hfree].
  - cbn [app closing_free lex_step] in Hfree. rewrite Hq, Hb in Hfree.
    apply andb_true_iff in Hfree as [Hc Hfree]. apply negb_true_iff in Hc.
    cbn [app closing_bracket List.length]. rewrite Hc.
    destruct (c =? lbracket)%N.
    + destruct (IH t (d + 1)%Z (S i) Hfree) as (d' & Hd & Heq & Ht).
      exists d'. rewrite Heq, Nat.add_succ_r. repeat split; [lia | exact Ht].
    + destruct (IH t d (S i) Hfree) as (d' & Hd & Heq & Ht).
      exists d'. rewrite Heq, Nat.add_succ_r. repeat split; [lia | exact Ht].
  - cbn [app closing_free lex_step] in Hfree.
    change (backslash =? dquote)%N with false in Hfree.
    change (backslash =? backslash)%N with true in Hfree.
    change (backslash =? rbracket)%N with false in Hfree.
    cbn [negb andb] in Hfree.
    apply andb_true_iff in Hfree as [He Hfree]. apply negb_true_iff in He.
    cbn [app closing_bracket List.length].
    change (backslash =? lbracket)%N with false.
    change (backslash =? rbracket)%N with false. cbn iota. rewrite He.
    destruct (e =? lbracket)%N.
    + destruct (IH t (d + 1)%Z (S (S i)) Hfree) as (d' & Hd & Heq & Ht).
      exists d'. rewrite Heq, !Nat.add_succ_r. repeat split; [lia | exact Ht].
    + destruct (IH t d (S (S i)) Hfree) as (d' & Hd & Heq & Ht).
      exists d'. rewrite Heq, !Nat.add_succ_r. repeat split; [lia | exact Ht].
Qed.

(** Over an outline with no closing bracket in its string literals, a
    count that starts at one or more does not go below its start and the
    loop does not break. *)
Lemma outline_count c :
  outline c ->
  forall t d i,
    closing_free Outside (c ++ t) = true ->
    (1 <= d)%Z ->
    exists d',
      (d <= d')%Z
      /\ closing_bracket (c ++ t) d i = closing_bracket t d' (i + List.length c)
      /\ closing_free Outside t = true.
Proof.
  induction 1 as [|c u Hc _ IH|b u Hb _ IH|a u _ IHa _ IHu]; intros t d i Hfree Hd.
  - exists d. cbn. rewrite Nat.add_0_r. repeat split; [lia | exact Hfree].
  - unfold plain in Hc. apply andb_true_iff in Hc as [Hc Hr].
    apply andb_true_iff in Hc as [Hq Hl].
    apply negb_true_iff in Hq, Hl, Hr.
    cbn [app closing_free lex_step andb] in Hfree. rewrite Hq in Hfree.
    cbn [app closing_bracket List.length]. rewrite Hl, Hr.
    destruct (IH t d (S i) Hfree Hd) as (d' & Hd' & Heq & Ht).
    exists d'. rewrite Heq, Nat.add_succ_r. repeat split; [lia | exact Ht].
  - cbn [app closing_free lex_step andb] in Hfree.
    change (dquote =? dquote)%N with true in Hfree. cbn iota in Hfree.
    rewrite <- app_assoc in Hfree.
    destruct (literal_count b Hb (u ++ t) d (S i) Hfree) as (d1 & Hd1 & Heq1 & Hu).
    destruct (IH t d1 (S i + List.length b) Hu ltac:(lia)) as (d' & Hd' & Heq & Ht).
    exists d'. cbn [app closing_bracket].
    change (dquote =? lbracket)%N with false.
    change (dquote =? rbracket)%N with false. cbn iota.
    rewrite <- app_assoc, Heq1, Heq. cbn [List.length]. rewrite length_app.
    repeat split; [lia | f_equal; lia | exact Ht].
  - cbn [app closing_free lex_step andb] in Hfree.
    change (lbracket =? dquote)%N with false in Hfree. cbn iota in Hfree.
    rewrite <- app_assoc in Hfree. cbn [app] in Hfree.
    destruct (IHa (rbracket :: u ++ t) (d + 1)%Z (S i) Hfree ltac:(lia))
      as (d1 & Hd1 & Heq1 & Hfree1).
    cbn [closing_free lex_step andb] in Hfree1.
    change (rbracket =? dquote)%N with false in Hfree1. cbn iota in Hfree1.
    destruct (IHu t (d1 - 1)%Z (S (S i + List.length a)) Hfree1 ltac:(lia))
      as (d' & Hd' & Heq & Ht).
    exists d'. cbn [app closing_bracket].
    change (lbracket =? lbracket)%N with true. cbn iota.
    rewrite <- app_assoc. cbn [app]. rewrite Heq1. cbn [closing_bracket].
    change (rbracket =? lbracket)%N with false.
    change (rbracket =? rbracket)%N with true. cbn iota.
    destruct (Z.eqb_spec (d1 - 1) 0) as [E|_]; [lia|].
    rewrite Heq. cbn [List.length]. rewrite length_app. cbn [List.length].
    repeat split; [lia | f_equal; lia | exact Ht].
Qed.

(** ** What the decoder reads *)

Lemma is_ws_plain c : is_ws c = true -> plain c = true.
Proof.
  unfold is_ws. rewrite !orb_true_iff, !N.eqb_eq.
  intros [[[->| ->]| ->]| ->]; reflexivity.
Qed.

Lemma is_digit_plain c : is_digit c = true -> plain c = true.
Proof.
  unfold is_digit, plain. rewrite andb_true_iff, !N.leb_le. intros [H1 H2].
  unfold dquote, lbracket, rbracket.
  destruct (N.eqb_spec c 34), (N.eqb_spec c 91), (N.eqb_spec c 93);
    try reflexivity; lia.
Qed.

Lemma hexval_char c x :
  hexval c = Some x -> (c =? dquote)%N = false /\ (c =? backslash)%N = false.
Proof.
  intros H. unfold dquote, backslash.
  destruct (N.eqb_spec c 34) as [->|_]; [discriminate H|].
  destruct (N.eqb_spec c 92) as [->|_]; [discriminate H|]. auto.
Qed.

Lemma hex4_chars a b c d x :
  hex4 a b c d = Some x ->
  forall t, literal t -> literal (a :: b :: c :: d :: t).
Proof.
  unfold hex4. intros H t Ht.
  destruct (hexval a) eqn:Ea; [|discriminate H].
  destruct (hexval b) eqn:Eb; [|discriminate H].
  destruct (hexval c) eqn:Ec; [|discriminate H].
  destruct (hexval d) eqn:Ed; [|discriminate H].
  apply hexval_char in Ea as [], Eb as [], Ec as [], Ed as [].
  repeat (apply literal_char; auto).
Qed.

Lemma skip_ws_split s :
  exists ws, s = ws ++ skip_ws s /\ forallb plain ws = true.
Proof.
  induction s as [|c s (ws & Hs & Hws)]; cbn.
  - exists []; auto.
  - destruct (is_ws c) eqn:Hc.
    + exists (c :: ws); cbn. rewrite (is_ws_plain _ Hc), Hws.
      split; [f_equal; exact Hs | reflexivity].
    + exists []; auto.
Qed.

Lemma scan_map_Ok {A B} (f : A -> B) (r : scan A) y rest :
  scan_map f r = Ok y rest -> exists x, r = Ok x rest /\ y = f x.
Proof. destruct r; cbn; intros [= <- <-] || discriminate. eauto. Qed.

(** [scanstring] reads a string literal. *)
Lemma scanstring_literal s x rest :
  scanstring s = Ok x rest -> exists b, s = b ++ rest /\ literal b.
Proof.
  remember (List.length s) as n eqn:Hn.
  assert (Hle : List.length s <= n) by lia. clear Hn.
  revert s x rest Hle.
  induction n as [|n IH]; intros [|c r] x rest Hle; try discriminate;
    [cbn in Hle; lia|].
  cbn in Hle. cbn [scanstring].
  destruct (c =? dquote)%N eqn:Eq.
  { apply N.eqb_eq in Eq as ->. intros [= <- <-].
    exists [dquote]. split; [reflexivity | constructor]. }
  destruct (c =? backslash)%N eqn:Eb.
  2:{ destruct (c <? 32)%N; [discriminate|]. intros H.
      apply scan_map_Ok in H as (x' & H & _).
      apply IH in H as (b & -> & Hb); [|lia].
      exists (c :: b). split; [reflexivity | now apply literal_char]. }
  apply N.eqb_eq in Eb as ->.
  destruct r as [|e r1]; [discriminate|].
  assert (Hsingle : forall t y,
             List.length t <= n -> scanstring t = Ok y rest ->
             exists b, t = b ++ rest /\ literal b) by (intros; eauto).
  destruct (e =? 117)%N.
  2:{ destruct (BACKSLASH e); [|discriminate]. intros H.
      apply scan_map_Ok in H as (x' & H & _).
      apply Hsingle in H as (b & -> & Hb); [|cbn in Hle; lia].
      exists (backslash :: e :: b). split; [reflexivity | now apply literal_escape]. }
  destruct r1 as [|h1 [|h2 [|h3 [|h4 r2]]]]; try discriminate.
  destruct (hex4 h1 h2 h3 h4) as [uni|] eqn:Eh; [|discriminate].
  cbn in Hle.
  assert (Hone : scan_map (cons uni) (scanstring r2) = Ok x rest ->
                 exists b, backslash :: e :: h1 :: h2 :: h3 :: h4 :: r2 = b ++ rest
                           /\ literal b).
  { intros H. apply scan_map_Ok in H as (x' & H & _).
    apply Hsingle in H as (b & -> & Hb); [|lia].
    exists (backslash :: e :: h1 :: h2 :: h3 :: h4 :: b).
    split; [reflexivity|]. apply literal_escape. now apply (hex4_chars _ _ _ _ _ Eh). }
  cbv zeta.
  destruct ((55296 <=? uni) && (uni <=? 56319))%N; [|exact Hone].
  destruct r2 as [|b0 [|u [|g1 [|g2 [|g3 [|g4 r3]]]]]]; try exact Hone.
  destruct ((b0 =? backslash) && (u =? 117))%N eqn:Ebu; [|exact Hone].
  apply andb_true_iff in Ebu as [Eb0 _]. apply N.eqb_eq in Eb0 as ->.
  destruct (hex4 g1 g2 g3 g4) as [uni2|] eqn:Eg; [|discriminate].
  destruct ((56320 <=? uni2) && (uni2 <=? 57343))%N; [|exact Hone].
  intros H. apply scan_map_Ok in H as (x' & H & _).
  apply Hsingle in H as (b & -> & Hb); [|cbn in Hle; lia].
  exists (backslash :: e :: h1 :: h2 :: h3 :: h4
          :: backslash :: u :: g1 :: g2 :: g3 :: g4 :: b).
  split; [reflexivity|].
  apply literal_escape, (hex4_chars _ _ _ _ _ Eh), literal_escape.
  now apply (hex4_chars _ _ _ _ _ Eg).
Qed.

Lemma span_digits_split s :
  s = fst (span_digits s) ++ snd (span_digits s)
  /\ forallb plain (fst (span_digits s)) = true.
Proof.
  induction s as [|c s [IH1 IH2]]; cbn; [auto|].
  destruct (is_digit c) eqn:Hc; [|auto].
  destruct (span_digits s) as [ds r]; cbn in *.
  rewrite (is_digit_plain _ Hc), IH2. split; [f_equal; exact IH1 | reflexivity].
Qed.

Lemma match_integer_split s neg ds r :
  match_integer s = Some (neg, ds, r) ->
  exists c, s = c ++ r /\ forallb plain c = true /\ c <> [].
Proof.
  unfold match_integer.
  assert (Hbody : forall s1 neg0,
             match s1 with
             | d :: r0 =>
                 if (d =? 48)%N then Some (neg0, [d], r0)
                 else if is_digit d then
                        let (ds0, r') := span_digits r0 in Some (neg0, d :: ds0, r')
                      else None
             | [] => None
             end = Some (neg, ds, r) ->
             exists c, s1 = c ++ r /\ forallb plain c = true /\ c <> []).
  { intros [|d r0] neg0; [discriminate|].
    destruct (N.eqb_spec d 48) as [->|_].
    - intros [= _ _ <-]. exists [48%N]. repeat split; easy.
    - destruct (is_digit d) eqn:Hd; [|discriminate].
      destruct (span_digits_split r0) as [H1 H2].
      destruct (span_digits r0) as [ds0 r']; cbn in H1, H2.
      intros [= _ _ <-]. exists (d :: ds0). cbn.
      rewrite (is_digit_plain _ Hd), H2. repeat split; [now rewrite H1 | easy]. }
  destruct s as [|c r0]; [discriminate|].
  destruct (N.eqb_spec c 45) as [->|_]; intros H.
  - apply (Hbody r0 true) in H as (c & -> & Hc & _).
    exists (45%N :: c). repeat split; [cbn; now rewrite Hc | easy].
  - now apply (Hbody (c :: r0) false) in H.
Qed.

Lemma match_frac_split s :
  s = fst (match_frac s) ++ snd (match_frac s)
  /\ forallb plain (fst (match_frac s)) = true.
Proof.
  unfold match_frac. destruct s as [|c r]; [auto|].
  destruct (N.eqb_spec c 46) as [->|_]; [|auto].
  destruct (span_digits_split r) as [H1 H2].
  destruct (span_digits r) as [[|d ds] r']; cbn in *; [auto|].
  split; [now rewrite H1 | exact H2].
Qed.

Lemma match_exp_split s :
  s = fst (match_exp s) ++ snd (match_exp s)
  /\ forallb plain (fst (match_exp s)) = true.
Proof.
  unfold match_exp. destruct s as [|c r]; [auto|].
  destruct ((c =? 101) || (c =? 69))%N eqn:Hc; [|auto].
  assert (Hpc : plain c = true).
  { apply orb_true_iff in Hc as [Hc|Hc]; apply N.eqb_eq in Hc; now subst. }
  assert (Hsign : exists sign r1,
             match r with
             | x :: r' => if ((x =? 45) || (x =? 43))%N then ([x], r') else ([], r)
             | [] => ([], r)
             end = (sign, r1)
             /\ r = sign ++ r1 /\ forallb plain sign = true).
  { destruct r as [|x r']; [exists [], []; auto|].
    destruct ((x =? 45) || (x =? 43))%N eqn:Hx.
    - exists [x], r'. repeat split. cbn.
      apply orb_true_iff in Hx as [Hx|Hx]; apply N.eqb_eq in Hx; now subst.
    - exists [], (x :: r'). auto. }
  destruct Hsign as (sign & r1 & -> & -> & Hs).
  destruct (span_digits_split r1) as [H1 H2].
  destruct (span_digits r1) as [[|d ds] r2]; cbn [fst snd] in *; [auto|].
  split.
  - cbn [app]. f_equal. rewrite <- app_assoc. f_equal. exact H1.
  - cbn [forallb]. rewrite Hpc. cbn [andb]. rewrite forallb_app, Hs. exact H2.
Qed.

Lemma match_number_split s v rest :
  match_number s = Some (v, rest) ->
  exists c, s = c ++ rest /\ forallb plain c = true /\ c <> [].
Proof.
  unfold match_number.
  destruct (match_integer s) as [[[neg ds] r]|] eqn:Ei; [|discriminate].
  apply match_integer_split in Ei as (c & -> & Hc & Hne).
  destruct (match_frac_split r) as [Hf1 Hf2].
  destruct (match_frac r) as [frac r1]; cbn [fst snd] in *.
  destruct (match_exp_split r1) as [He1 He2].
  destruct (match_exp r1) as [exp r2]; cbn [fst snd] in *.
  intros H.
  assert (Hrest : rest = r2) by (destruct frac, exp; now injection H).
  subst rest. exists (c ++ frac ++ exp). repeat split.
  - rewrite <- !app_assoc. f_equal. rewrite Hf1 at 1. f_equal. exact He1.
  - now rewrite !forallb_app, Hc, Hf2, He2.
  - destruct c; [easy | discriminate].
Qed.

Lemma keyword_split word v s v' rest :
  keyword word v s = Some (v', rest) -> s = lit word ++ rest.
Proof.
  unfold keyword. destruct (strip_prefix (lit word) s) as [r|] eqn:E; [|discriminate].
  intros [= _ <-]. now apply strip_prefix_app.
Qed.

Lemma first_of_Some {A} (a b : option A) x :
  first_of a b = Some x -> a = Some x \/ b = Some x.
Proof. destruct a; cbn; auto. Qed.

(** What [scan_once] reads outside strings, objects and arrays has
    neither quote nor bracket. *)
Lemma scan_atom_split s v rest :
  scan_atom s = Some (v, rest) ->
  exists c, s = c ++ rest /\ forallb plain c = true /\ c <> [].
Proof.
  unfold scan_atom. intros H.
  repeat (apply first_of_Some in H as [H|H]);
    try (apply keyword_split in H; eexists; repeat split;
         [exact H | reflexivity | discriminate]).
  now apply match_number_split in H.
Qed.

Create HintDb outline.
#[local] Hint Constructors outline : outline.
#[local] Hint Resolve outline_app outline_run outline_plain_run outline_brackets : outline.
#[local] Hint Extern 1 (plain _ = true) => reflexivity : outline.

Ltac list_eq :=
  subst; repeat (rewrite <- ?app_assoc; cbn [app]); reflexivity.

(** The text read as a value has an outline; the text read as an array is
    an outline between its two brackets. *)
Lemma scan_outline f :
  (forall s v rest,
      scan_once f s = Ok v rest ->
      exists c, s = c ++ rest /\ outline c /\ c <> []
                /\ (forall r, s = lbracket :: r ->
                              exists a, c = lbracket :: a ++ [rbracket] /\ outline a))
  /\ (forall s vs rest,
         array_items f s = Ok vs rest ->
         exists a, s = a ++ rbracket :: rest /\ outline a)
  /\ (forall s ps rest,
         object_items f s = Ok ps rest ->
         exists c, s = c ++ rest /\ outline c /\ c <> []).
Proof.
  induction f as [|f (IHv & IHa & IHo)]; [repeat split; discriminate|].
  repeat split.
  - (* scan_once *)
    intros [|c r] v rest; [discriminate|]. cbn [scan_once].
    destruct (N.eqb_spec c dquote) as [->|Hq].
    { intros H. apply scan_map_Ok in H as (x & H & _).
      apply scanstring_literal in H as (b & -> & Hb).
      exists (dquote :: b). repeat split; try easy.
      rewrite <- (app_nil_r b). auto with outline. }
    destruct (N.eqb_spec c lbrace) as [->|Hb].
    { destruct (skip_ws_split r) as (ws & Hr & Hws).
      destruct (skip_ws r) as [|x r'] eqn:E; [discriminate|].
      destruct (N.eqb_spec x rbrace) as [->|_].
      - intros [= _ <-]. exists (lbrace :: ws ++ [rbrace]).
        repeat split; try easy; [list_eq | auto 6 with outline].
      - intros H. apply scan_map_Ok in H as (ps & H & _).
        apply IHo in H as (c & Hc & Houtline & _).
        exists (lbrace :: ws ++ c).
        repeat split; try easy; [rewrite Hr, Hc; list_eq | auto with outline]. }
    destruct (N.eqb_spec c lbracket) as [->|Hl].
    { destruct (skip_ws_split r) as (ws & Hr & Hws).
      destruct (skip_ws r) as [|x r'] eqn:E; [discriminate|].
      destruct (N.eqb_spec x rbracket) as [->|_].
      - intros [= _ <-]. exists (lbracket :: ws ++ [rbracket]).
        repeat split; try easy; [list_eq | auto with outline |].
        intros r0 _. exists ws. auto with outline.
      - intros H. apply scan_map_Ok in H as (vs & H & _).
        apply IHa in H as (a & Ha & Houtline).
        exists (lbracket :: (ws ++ a) ++ [rbracket]).
        repeat split; try easy;
          [rewrite Hr, Ha; list_eq | auto with outline |].
        intros r0 _. exists (ws ++ a). auto with outline. }
    destruct (scan_atom (c :: r)) as [[v' rest']|] eqn:Ea; [|discriminate].
    intros [= <- <-]. apply scan_atom_split in Ea as (a & Ha & Hplain & Hne).
    exists a. repeat split; auto with outline.
    intros r0 [= -> _]. now elim Hl.
  - (* array_items *)
    intros s vs rest. cbn [array_items].
    destruct (scan_once f s) as [v rest1| |] eqn:Ev; try discriminate.
    apply IHv in Ev as (c1 & Hs & Hc1 & _).
    destruct (skip_ws_split rest1) as (ws & Hr & Hws).
    destruct (skip_ws rest1) as [|x r] eqn:E; [discriminate|].
    destruct (N.eqb_spec x rbracket) as [->|_].
    + intros [= _ <-]. exists (c1 ++ ws).
      split; [rewrite Hs, Hr; list_eq | auto with outline].
    + destruct (N.eqb_spec x 44) as [->|_]; [|discriminate].
      intros H. apply scan_map_Ok in H as (vs' & H & _).
      destruct (skip_ws_split r) as (ws2 & Hr2 & Hws2).
      apply IHa in H as (a & Ha & Houtline).
      exists (c1 ++ ws ++ 44%N :: ws2 ++ a).
      split; [rewrite Hs, Hr, Hr2, Ha; list_eq | auto 8 with outline].
  - (* object_items *)
    intros [|q r] ps rest; [discriminate|]. cbn [object_items].
    destruct (N.eqb_spec q dquote) as [->|_]; [|discriminate].
    destruct (scanstring r) as [key rest0| |] eqn:Ek; try discriminate.
    apply scanstring_literal in Ek as (b & Hb & Hliteral).
    destruct (skip_ws_split rest0) as (ws0 & Hr0 & Hws0).
    destruct (skip_ws rest0) as [|x r1] eqn:E0; [discriminate|].
    destruct (N.eqb_spec x 58) as [->|_]; [|discriminate].
    destruct (skip_ws_split r1) as (ws1 & Hr1 & Hws1).
    destruct (scan_once f (skip_ws r1)) as [v rest1| |] eqn:Ev; try discriminate.
    apply IHv in Ev as (c1 & Hs1 & Hc1 & _).
    destruct (skip_ws_split rest1) as (ws2 & Hr2 & Hws2).
    destruct (skip_ws rest1) as [|y r2] eqn:E2; [discriminate|].
    assert (Hkey : outline (dquote :: b ++ ws0 ++ 58%N :: ws1 ++ c1 ++ ws2)).
    { apply outline_string; auto 8 with outline. }
    destruct (N.eqb_spec y rbrace) as [->|_].
    + intros [= _ <-].
      exists ((dquote :: b ++ ws0 ++ 58%N :: ws1 ++ c1 ++ ws2) ++ [rbrace]).
      repeat split; try easy; [|auto with outline].
      rewrite Hb, Hr0, Hr1, Hs1, Hr2. list_eq.
    + destruct (N.eqb_spec y 44) as [->|_]; [|discriminate].
      intros H. apply scan_map_Ok in H as (ps' & H & _).
      destruct (skip_ws_split r2) as (ws3 & Hr3 & Hws3).
      apply IHo in H as (c & Hc & Houtline & _).
      exists ((dquote :: b ++ ws0 ++ 58%N :: ws1 ++ c1 ++ ws2) ++ 44%N :: ws3 ++ c).
      repeat split; try easy; [|auto 8 with outline].
      rewrite Hb, Hr0, Hr1, Hs1, Hr2, Hr3, Hc. list_eq.
Qed.

Lemma skip_ws_nil s x : skip_ws s = [] -> In x s -> is_ws x = true.
Proof.
  induction s as [|c s IH]; cbn; [easy|].
  destruct (is_ws c) eqn:Hc; [|discriminate].
  intros H [<-|Hx]; auto.
Qed.

(** On the text of a decoded array that ends with its closing bracket and
    has no closing bracket inside a string literal, the loop of
    [generate_masterplan] keeps the whole text: it does not stop at the
    closing bracket of a nested array. *)
Lemma isolate_decoded_array arr v r body :
  json_loads arr = Some v ->
  arr = lbracket :: r ->
  arr = body ++ [rbracket] ->
  closing_free Outside arr = true ->
  isolate arr = arr.
Proof.
  intros Hloads Hr Hbody Hfree. unfold json_loads in Hloads.
  destruct (scan_once (S (2 * List.length arr)) (skip_ws arr))
    as [v' rest| |] eqn:Escan; try discriminate.
  rewrite Hr in Escan at 2. cbn [skip_ws] in Escan.
  change (is_ws lbracket) with false in Escan. cbv iota in Escan.
  destruct (skip_ws rest) eqn:Erest; [|discriminate].
  destruct (scan_outline (S (2 * List.length arr))) as (Hv & _ & _).
  apply Hv in Escan as (c & Hc & _ & _ & Harray).
  destruct (Harray r eq_refl) as (a & -> & Ha).
  assert (Hnil : rest = []).
  { clear Harray. induction rest as [|y rest' _] using rev_ind; [reflexivity|].
    exfalso. rewrite <- Hr, Hbody in Hc.
    rewrite app_assoc in Hc. apply app_inj_tail in Hc as [_ <-].
    apply (skip_ws_nil _ rbracket) in Erest; [discriminate Erest|].
    apply in_or_app. right. now left. }
  subst rest. rewrite app_nil_r in Hc. rewrite <- Hr in Hc. clear Hr Hbody.
  subst arr. unfold isolate. cbn [closing_bracket].
  change (lbracket =? lbracket)%N with true. cbv iota.
  cbn [app closing_free lex_step andb] in Hfree.
  change (lbracket =? dquote)%N with false in Hfree. cbv iota in Hfree.
  destruct (outline_count a Ha [rbracket] (0 + 1)%Z 1 Hfree ltac:(lia))
    as (d & Hd & -> & _).
  cbn [closing_bracket].
  change (rbracket =? lbracket)%N with false.
  change (rbracket =? rbracket)%N with true. cbv iota.
  destruct (d - 1 =? 0)%Z; [|reflexivity].
  apply firstn_all2. cbn [List.length]. rewrite length_app. cbn [List.length]. lia.
Qed.

Lemma re_search_earliest_iff md arr :
  re_search (md ++ arr) = Some (List.length md) <-> earliest_marker md arr.
Proof.
  split; [|apply re_search_earliest].
  induction md as [|c md IH]; cbn [app List.length].
  - intros H. split.
    + apply match_here_marker. destruct arr as [|x arr]; cbn [re_search] in H.
      * discriminate H.
      * destruct (match_here (x :: arr)); [reflexivity|].
        destruct (re_search arr); discriminate H.
    + intros pre post _ Hlen. cbn in Hlen. lia.
  - cbn [re_search]. destruct (match_here (c :: md ++ arr)) eqn:E; [discriminate|].
    destruct (re_search (md ++ arr)) as [i|] eqn:Ei; [|discriminate].
    intros [= ->]. destruct (IH eq_refl) as [Harr Hfirst].
    split; [exact Harr|].
    intros [|x pre] post Hpp Hlen.
    + cbn in Hpp. subst post. rewrite <- match_here_marker. now rewrite E.
    + injection Hpp as -> Hpp. apply (Hfirst pre post Hpp). cbn in Hlen. lia.
Qed.

Section Extraction.

Context {lib : Library}.

Lemma validate_dicts_records eps : validate_dicts (map PyDict eps) = Some eps.
Proof.
  induction eps as [|d eps IH]; cbn; [reflexivity|].
  now rewrite validate_dict_dict, IH.
Qed.

(** A record with the five fields, each of its annotated type, is
    accepted with the values it has. *)
Lemma describes_accepted v a w :
  describes v a -> APISpec_new v w = (Return a, w).
Proof.
  intros (d & -> & Hn & Hd & He & Hb & Hr).
  rewrite APISpec_new_record. unfold APISpec_validate.
  rewrite Hn, Hd, He, Hb, Hr. cbn [validate_endpoints].
  rewrite !validate_str_str, validate_bool_bool, validate_dicts_records.
  destruct a; reflexivity.
Qed.

Variables (self : ChatOPT) (ms : str) (cn ind bs : option str) (w w1 : world).
Variables md arr : str.
Hypothesis answered :
  run (masterplan_chain self) (context ms cn ind bs) w = (Return (md ++ arr), w1).

(** C1, amended. When the response is a text [md] followed by a text
    [arr] that ends with a closing bracket, where the leftmost marker of
    the response is the start of [arr], [json.loads] decodes [arr] to a
    list of records that have the five fields with values of their types
    (strings, a list of objects, a boolean), and no string literal of
    [arr] has a closing bracket in it, [generate_masterplan] returns a
    result whose [markdown_content] is [md] trimmed and whose [api_specs]
    are the specifications of the records, as many, in their order, with
    their values; the bracket count keeps the whole of [arr], nested
    arrays included. *)
Theorem masterplan_extracts_array body records specs :
  earliest_marker md arr ->
  arr = body ++ [rbracket] ->
  json_loads arr = Some (PyList records) ->
  Forall2 describes records specs ->
  closing_free Outside arr = true ->
  (exists r,
      generate_masterplan self ms cn ind bs w = (Return r, w1)
      /\ markdown_content r = strip md
      /\ api_specs r = specs
      /\ questions r = None)
  /\ isolate arr = arr.
Proof.
  intros Hmark Hbody Hloads Hrecords Hfree.
  assert (Hwhole : isolate arr = arr).
  { destruct Hmark as [(w1' & w2' & rest & Harr & _) _].
    exact (isolate_decoded_array arr _ _ body Hloads Harr Hbody Hfree). }
  split; [|exact Hwhole].
  exists (MasterplanResponse_new (strip md) specs).
  split; [|split; [|split]; reflexivity].
  apply re_search_earliest in Hmark.
  unfold generate_masterplan, parse_masterplan, find_api_specs, try_except.
  unfold bind at 1. rewrite answered, Hmark.
  rewrite skipn_app, skipn_all, Nat.sub_diag, firstn_app, firstn_all, Nat.sub_diag.
  cbn [skipn firstn app]. rewrite app_nil_r, Hwhole.
  unfold bind. rewrite loads_eval, Hloads. cbn [iter ret].
  rewrite (mapM_APISpec_new_all records specs); [reflexivity|].
  eapply Forall2_impl; [|exact Hrecords].
  intros v a Hva w'. now apply describes_accepted.
Qed.

End Extraction.

Lemma masterplan_extracts_array_witness :
  (exists r,
      generate_masterplan (lib := strict) (answering plan_with_orders)
                          (lit "We sell shoes") None None None fresh
      = (Return r,
         snd (run (masterplan_chain (answering plan_with_orders))
                  (context (lit "We sell shoes") None None None) fresh))
      /\ markdown_content r = lit "Plan overview."
      /\ api_specs r = [orders_spec]
      /\ questions r = None)
  /\ isolate orders_array = orders_array.
Proof.
  apply (masterplan_extracts_array (lib := strict) (answering plan_with_orders)
           (lit "We sell shoes") None None None fresh
           (snd (run (masterplan_chain (answering plan_with_orders))
                     (context (lit "We sell shoes") None None None) fresh))
           overview orders_array
           ltac:(vm_compute; reflexivity)
           (removelast orders_array)
           [PyDict [(lit "name", PyStr (lit "Orders"));
                    (lit "description", PyStr (lit "d"));
                    (lit "endpoints",
                     PyList [PyDict [(lit "path", PyStr (lit "/o"));
                                     (lit "method", PyStr (lit "GET"));
                                     (lit "purpose", PyStr (lit "list"))]]);
                    (lit "build_in_house", PyBool true);
                    (lit "reason", PyStr (lit "core"))]]
           [orders_spec]).
  - apply re_search_earliest_iff. vm_compute. reflexivity.
  - vm_compute. reflexivity.
  - vm_compute. reflexivity.
  - repeat constructor. eexists. repeat split; vm_compute; reflexivity.
  - vm_compute. reflexivity.
Defined.

(** C1 as stated fails on a well-formed array with a closing bracket
    inside a string: the bracket count returns to zero there, the text
    kept is not JSON, and the result is the whole response with no
    specification.  It also fails when the endpoints are a list of values
    that are not objects: the record is not accepted. *)
Lemma masterplan_bracket_in_string_counterexample :
  (earliest_marker overview bracket_array
   /\ json_loads bracket_array
      = Some (PyList [PyDict [(lit "name", PyStr (lit "Orders"));
                              (lit "description", PyStr (lit "see 2]"));
                              (lit "endpoints", PyList []);
                              (lit "build_in_house", PyBool true);
                              (lit "reason", PyStr (lit "core"))]])
   /\ isolate bracket_array = qlit "[{'name':'Orders','description':'see 2]"
   /\ fst (generate_masterplan (lib := strict) (answering (overview ++ bracket_array))
                               (lit "We sell shoes") None None None fresh)
      = Return (MasterplanResponse_new (overview ++ bracket_array) [])
   /\ MasterplanResponse_new (overview ++ bracket_array) []
      <> MasterplanResponse_new (strip overview) [bracket_spec])
  /\ (earliest_marker overview numbers_array
      /\ json_loads numbers_array
         = Some (PyList [PyDict [(lit "name", PyStr (lit "Orders"));
                                 (lit "description", PyStr (lit "d"));
                                 (lit "endpoints", PyList [PyInt 1; PyInt 2]);
                                 (lit "build_in_house", PyBool true);
                                 (lit "reason", PyStr (lit "core"))]])
      /\ fst (generate_masterplan (lib := strict) (answering (overview ++ numbers_array))
                                  (lit "We sell shoes") None None None fresh)
         = Return (MasterplanResponse_new (overview ++ numbers_array) [])).
Proof.
  split; [split; [|split; [|split; [|split]]] | split; [|split]].
  - apply re_search_earliest_iff. vm_compute. reflexivity.
  - vm_compute. reflexivity.
  - vm_compute. reflexivity.
  - vm_compute. reflexivity.
  - unfold MasterplanResponse_new. intros H. injection H as _ H. discriminate H.
  - apply re_search_earliest_iff. vm_compute. reflexivity.
  - vm_compute. reflexivity.
  - vm_compute. reflexivity.
Qed.

(** ** The counter of the decoder

    [json_loads] gives [scan_once] more than twice the length of the text:
    the counter never runs out, so that a [None] of [json_loads] is an
    error of the decoder. *)

Lemma scan_map_fuel {A B} (f : A -> B) (r : scan A) :
  scan_map f r = OutOfFuel -> r = OutOfFuel.
Proof. destruct r; cbn; congruence. Qed.

Lemma scanstring_fuel s : scanstring s <> OutOfFuel.
Proof.
  remember (List.length s) as n eqn:Hn.
  assert (Hle : List.length s <= n) by lia. clear Hn.
  revert s Hle.
  induction n as [|n IH]; intros [|c r] Hle; try discriminate;
    [cbn in Hle; lia|].
  cbn in Hle. cbn [scanstring].
  assert (Hmap : forall x t, List.length t <= n ->
                             scan_map (cons x) (scanstring t) <> OutOfFuel).
  { intros x t Ht H. apply scan_map_fuel in H. now apply (IH t). }
  destruct (c =? dquote)%N; [discriminate|].
  destruct (c =? backslash)%N.
  2:{ destruct (c <? 32)%N; [discriminate|]. apply Hmap. lia. }
  destruct r as [|e r1]; [discriminate|]. cbn in Hle.
  destruct (e =? 117)%N.
  2:{ destruct (BACKSLASH e); [|discriminate]. apply Hmap. lia. }
  destruct r1 as [|h1 [|h2 [|h3 [|h4 r2]]]]; try discriminate.
  destruct (hex4 h1 h2 h3 h4) as [uni|]; [|discriminate].
  cbn in Hle. cbv zeta.
  assert (Hone : scan_map (cons uni) (scanstring r2) <> OutOfFuel)
    by (apply Hmap; lia).
  destruct ((55296 <=? uni) && (uni <=? 56319))%N; [|exact Hone].
  destruct r2 as [|b0 [|u [|g1 [|g2 [|g3 [|g4 r3]]]]]]; try exact Hone.
  destruct ((b0 =? backslash) && (u =? 117))%N; [|exact Hone].
  destruct (hex4 g1 g2 g3 g4) as [uni2|]; [|discriminate].
  destruct ((56320 <=? uni2) && (uni2 <=? 57343))%N; [|exact Hone].
  apply Hmap. cbn in Hle. lia.
Qed.

Lemma skip_ws_length s : List.length (skip_ws s) <= List.length s.
Proof.
  destruct (skip_ws_split s) as (ws & Hs & _).
  rewrite Hs at 2. rewrite length_app. lia.
Qed.

Lemma scan_once_shorter f s v rest :
  scan_once f s = Ok v rest -> List.length rest < List.length s.
Proof.
  intros H. destruct (scan_outline f) as (Hv & _ & _).
  apply Hv in H as (c & -> & _ & Hne & _).
  rewrite length_app. destruct c; [easy | cbn; lia].
Qed.

Lemma scanstring_shorter s x rest :
  scanstring s = Ok x rest -> List.length rest < List.length s.
Proof.
  intros H. apply scanstring_literal in H as (b & -> & Hb).
  rewrite length_app. destruct Hb; cbn; lia.
Qed.

Lemma scan_fuel f :
  (forall s, 2 * List.length s < f -> scan_once f s <> OutOfFuel)
  /\ (forall s, 2 * List.length s + 1 < f -> array_items f s <> OutOfFuel)
  /\ (forall s, 2 * List.length s < f -> object_items f s <> OutOfFuel).
Proof.
  induction f as [|f (IHv & IHa & IHo)]; [repeat split; intros; lia|].
  repeat split.
  - intros [|c r] Hf; [discriminate|]. cbn [scan_once]. cbn in Hf.
    pose proof (skip_ws_length r) as Hws.
    destruct (c =? dquote)%N.
    { intros H. apply scan_map_fuel in H. now apply scanstring_fuel in H. }
    destruct (c =? lbrace)%N.
    { destruct (skip_ws r) as [|x r'] eqn:E; [discriminate|].
      destruct (x =? rbrace)%N; [discriminate|].
      intros H. apply scan_map_fuel in H. revert H. apply IHo. lia. }
    destruct (c =? lbracket)%N.
    { destruct (skip_ws r) as [|x r'] eqn:E; [discriminate|].
      destruct (x =? rbracket)%N; [discriminate|].
      intros H. apply scan_map_fuel in H. revert H. apply IHa. lia. }
    destruct (scan_atom (c :: r)) as [[v rest]|]; discriminate.
  - intros s Hf. cbn [array_items].
    destruct (scan_once f s) as [v rest1| |] eqn:Ev; [|discriminate|].
    + apply scan_once_shorter in Ev.
      pose proof (skip_ws_length rest1) as Hws.
      destruct (skip_ws rest1) as [|x r] eqn:E; [discriminate|].
      destruct (x =? rbracket)%N; [discriminate|].
      destruct (x =? 44)%N; [|discriminate].
      pose proof (skip_ws_length r) as Hws2. cbn in Hws.
      intros H. apply scan_map_fuel in H. revert H. apply IHa. lia.
    + exfalso. revert Ev. apply IHv. lia.
  - intros [|q r] Hf; [discriminate|]. cbn [object_items]. cbn in Hf.
    destruct (q =? dquote)%N; [|discriminate].
    destruct (scanstring r) as [key rest0| |] eqn:Ek; [|discriminate|].
    + apply scanstring_shorter in Ek.
      pose proof (skip_ws_length rest0) as Hws0.
      destruct (skip_ws rest0) as [|x r1] eqn:E0; [discriminate|].
      destruct (x =? 58)%N; [|discriminate].
      pose proof (skip_ws_length r1) as Hws1. cbn in Hws0.
      destruct (scan_once f (skip_ws r1)) as [v rest1| |] eqn:Ev; [|discriminate|].
      * apply scan_once_shorter in Ev.
        pose proof (skip_ws_length rest1) as Hws2.
        destruct (skip_ws rest1) as [|y r2] eqn:E2; [discriminate|].
        destruct (y =? rbrace)%N; [discriminate|].
        destruct (y =? 44)%N; [|discriminate].
        pose proof (skip_ws_length r2) as Hws3. cbn in Hws2.
        intros H. apply scan_map_fuel in H. revert H. apply IHo. lia.
      * exfalso. revert Ev. apply IHv. lia.
    + now apply scanstring_fuel in Ek.
Qed.

(** The counter that [json_loads] sets is never used up. *)
Lemma scan_once_fuel s :
  scan_once (S (2 * List.length s)) (skip_ws s) <> OutOfFuel.
Proof.
  destruct (scan_fuel (S (2 * List.length s))) as (Hv & _ & _).
  apply Hv. pose proof (skip_ws_length s). lia.
Qed.

(** More fuel does not change a result. *)
Lemma scan_more_fuel f :
  (forall s r, scan_once f s = r -> r <> OutOfFuel -> scan_once (S f) s = r)
  /\ (forall s r, array_items f s = r -> r <> OutOfFuel -> array_items (S f) s = r)
  /\ (forall s r, object_items f s = r -> r <> OutOfFuel -> object_items (S f) s = r).
Proof.
  induction f as [|f (IHv & IHa & IHo)];
    [repeat split; intros s r <- H; now elim H|].
  assert (Hmap : forall A B (g : A -> B) (r r' : scan A),
             (r <> OutOfFuel -> r' = r) ->
             scan_map g r <> OutOfFuel -> scan_map g r' = scan_map g r).
  { intros A B g r r' Hr H. rewrite Hr; [reflexivity|].
    intros ->. now apply H. }
  repeat split.
  - intros [|c r] res <- Hres; [reflexivity|].
    cbn [scan_once] in *.
    destruct (c =? dquote)%N; [reflexivity|].
    destruct (c =? lbrace)%N.
    { destruct (skip_ws r) as [|x r']; [reflexivity|].
      destruct (x =? rbrace)%N; [reflexivity|].
      apply Hmap; [|exact Hres]. intros H. now apply IHo. }
    destruct (c =? lbracket)%N; [|reflexivity].
    destruct (skip_ws r) as [|x r']; [reflexivity|].
    destruct (x =? rbracket)%N; [reflexivity|].
    apply Hmap; [|exact Hres]. intros H. now apply IHa.
  - intros s res <- Hres.
    change (array_items (S (S f)) s)
      with (match scan_once (S f) s with
            | Ok v rest =>
                match skip_ws rest with
                | x :: r =>
                    if (x =? rbracket)%N then Ok [v] r
                    else if (x =? 44)%N then
                           scan_map (cons v) (array_items (S f) (skip_ws r))
                         else Err
                | [] => Err
                end
            | Err => Err
            | OutOfFuel => OutOfFuel
            end).
    cbn [array_items] in *.
    destruct (scan_once f s) as [v rest| |] eqn:Ev.
    + rewrite (IHv s _ Ev) by discriminate.
      destruct (skip_ws rest) as [|x r]; [reflexivity|].
      destruct (x =? rbracket)%N; [reflexivity|].
      destruct (x =? 44)%N; [|reflexivity].
      apply Hmap; [|exact Hres]. intros H. now apply IHa.
    + now rewrite (IHv s _ Ev).
    + now elim Hres.
  - intros [|q r] res <- Hres; [reflexivity|].
    change (object_items (S (S f)) (q :: r))
      with (if (q =? dquote)%N then
              match scanstring r with
              | Ok key rest =>
                  match skip_ws rest with
                  | x :: r1 =>
                      if (x =? 58)%N then
                        match scan_once (S f) (skip_ws r1) with
                        | Ok v rest1 =>
                            match skip_ws rest1 with
                            | y :: r2 =>
                                if (y =? rbrace)%N then Ok [(key, v)] r2
                                else if (y =? 44)%N then
                                       scan_map (cons (key, v))
                                                (object_items (S f) (skip_ws r2))
                                     else Err
                            | [] => Err
                            end
                        | Err => Err
                        | OutOfFuel => OutOfFuel
                        end
                      else Err
                  | [] => Err
                  end
              | Err => Err
              | OutOfFuel => OutOfFuel
              end
            else Err).
    cbn [object_items] in *.
    destruct (q =? dquote)%N; [|reflexivity].
    destruct (scanstring r) as [key rest| |]; try reflexivity.
    destruct (skip_ws rest) as [|x r1]; [reflexivity|].
    destruct (x =? 58)%N; [|reflexivity].
    destruct (scan_once f (skip_ws r1)) as [v rest1| |] eqn:Ev.
    + rewrite (IHv _ _ Ev) by discriminate.
      destruct (skip_ws rest1) as [|y r2]; [reflexivity|].
      destruct (y =? rbrace)%N; [reflexivity|].
      destruct (y =? 44)%N; [|reflexivity].
      apply Hmap; [|exact Hres]. intros H. now apply IHo.
    + now rewrite (IHv _ _ Ev).
    + now elim Hres.
Qed.

Example loads_nested :
  json_loads (qlit "[{'a': [1, 2.5e3, null]}, 'x\u00e9', true] ")
  = Some (PyList [PyDict [(lit "a", PyList [PyInt 1; PyFloat (lit "2.5e3"); PyNone])];
                  PyStr (lit "x" ++ [233%N]); PyBool true]).
Proof. vm_compute. reflexivity. Qed.

(** * Further properties *)

(** ** Trimming *)

Lemma lstrip_app a b :
  lstrip (a ++ b) = match lstrip a with [] => lstrip b | _ :: _ => lstrip a ++ b end.
Proof.
  induction a as [|c a IH]; cbn [app lstrip]; [reflexivity|].
  destruct (isspace c); [exact IH | reflexivity].
Qed.

Lemma lstrip_head s :
  match lstrip s with [] => True | c :: _ => isspace c = false end.
Proof.
  induction s as [|c s IH]; cbn [lstrip]; [exact I|].
  destruct (isspace c) eqn:Hc; [exact IH | exact Hc].
Qed.

Lemma lstrip_fixed c s : isspace c = false -> lstrip (c :: s) = c :: s.
Proof. intros Hc. cbn [lstrip]. now rewrite Hc. Qed.

Lemma lstrip_idem s : lstrip (lstrip s) = lstrip s.
Proof.
  pose proof (lstrip_head s) as H.
  destruct (lstrip s) as [|c u]; [reflexivity | now apply lstrip_fixed].
Qed.

Lemma rstrip_cons c u :
  rstrip (c :: u)
  = match rstrip u with
    | [] => if isspace c then [] else [c]
    | _ :: _ => c :: rstrip u
    end.
Proof.
  unfold rstrip. cbn [rev]. rewrite lstrip_app.
  destruct (lstrip (rev u)) as [|x l] eqn:E; cbn [rev].
  - cbn [lstrip]. destruct (isspace c); reflexivity.
  - rewrite rev_app_distr. cbn [rev app].
    destruct (rev l ++ [x]) eqn:E'; [now destruct (rev l)|reflexivity].
Qed.

Lemma rstrip_idem s : rstrip (rstrip s) = rstrip s.
Proof. unfold rstrip. now rewrite rev_involutive, lstrip_idem. Qed.

Lemma lstrip_rstrip_fixed u : lstrip u = u -> lstrip (rstrip u) = rstrip u.
Proof.
  intros Hu. pose proof (lstrip_head u) as Hhead. rewrite Hu in Hhead.
  destruct u as [|c u]; [reflexivity|].
  rewrite rstrip_cons, Hhead.
  destruct (rstrip u); now apply lstrip_fixed.
Qed.

(** [strip] leaves a trimmed text as it is. *)
Lemma strip_idem s : strip (strip s) = strip s.
Proof.
  unfold strip. rewrite (lstrip_rstrip_fixed (lstrip s) (lstrip_idem s)).
  apply rstrip_idem.
Qed.

Lemma lstrip_In x s : In x (lstrip s) -> In x s.
Proof.
  induction s as [|c s IH]; cbn [lstrip]; [easy|].
  destruct (isspace c); [right; auto | easy].
Qed.

Lemma strip_In x s : In x (strip s) -> In x s.
Proof.
  unfold strip, rstrip. intros H.
  apply in_rev, lstrip_In, in_rev in H. now apply lstrip_In.
Qed.

Lemma split_no_separator sep s l : In l (split sep s) -> ~ In sep l.
Proof.
  revert l; induction s as [|c s IH]; cbn [split]; intros l.
  - intros [<-|[]]. easy.
  - destruct (N.eqb_spec c sep) as [->|Hc].
    + intros [<-|H]; [easy | now apply IH].
    + destruct (split sep s) as [|l0 ls] eqn:E.
      * intros [<-|[]] [H|[]]. now elim Hc.
      * intros [<-|H].
        -- intros [H|H]; [now elim Hc|]. apply (IH l0); [now left | exact H].
        -- apply IH. now right.
Qed.

(** Every line the fallback keeps is clean. *)
Lemma kept_lines_clean text : Forall clean (kept_lines text).
Proof.
  unfold kept_lines. apply Forall_forall. intros t Ht.
  apply in_map_iff in Ht as (line & <- & Hline).
  apply filter_In in Hline as [Hin Hkeep].
  apply andb_true_iff in Hkeep as [Hkeep Hend].
  apply andb_true_iff in Hkeep as [Hne Hstart].
  apply negb_true_iff in Hne, Hstart, Hend.
  repeat split; auto.
  - intros E. rewrite E in Hne. discriminate Hne.
  - apply strip_idem.
  - intros H. apply strip_In in H.
    exact (split_no_separator newline text line Hin H).
Qed.

Lemma not_In_existsb (x : N) l : existsb (N.eqb x) l = false -> ~ In x l.
Proof.
  intros H Hin. assert (E : existsb (N.eqb x) l = true); [|congruence].
  apply existsb_exists. exists x. split; [exact Hin | apply N.eqb_refl].
Qed.

Lemma no_questions_clean :
  Forall (fun q => exists t, q = PyStr t /\ clean t) no_questions.
Proof.
  constructor; [|constructor]. eexists. split; [reflexivity|].
  repeat split; try (vm_compute; reflexivity); [discriminate|].
  apply not_In_existsb. vm_compute. reflexivity.
Qed.

(** ** More on [generate_questions] *)

Section QuestionFacts.

Context {lib : Library}.
Variables (self : ChatOPT) (ms : str) (cn ind bs : option str) (w w1 : world).
Variable response : str.
Hypothesis answered :
  run (questions_chain self) (context ms cn ind bs) w = (Return response, w1).

(** X1. Once the chain has answered, [generate_questions] returns the empty
    list exactly when the response is the JSON text of an empty array. *)
Theorem questions_empty_iff :
  fst (generate_questions self ms cn ind bs w) = Return []
  <-> json_loads response = Some (PyList []).
Proof.
  rewrite (generate_questions_answered _ _ _ _ _ _ _ _ answered).
  rewrite parse_questions_eval. cbn [fst].
  destruct (json_loads response) as [v|].
  - destruct v; try (split; discriminate).
    split; [intros [= ->] | intros [= ->]]; reflexivity.
  - rewrite question_lines_kept.
    destruct (kept_lines response); split; discriminate.
Qed.

(** X2. When the response is not JSON, every element of the result is a
    string that is not empty, is trimmed, holds no newline character
    (U+000A, the one character the code splits on), does not start with an
    opening bracket and does not end with a closing one. *)
Theorem fallback_questions_clean qs w' :
  json_loads response = None ->
  generate_questions self ms cn ind bs w = (Return qs, w') ->
  Forall (fun q => exists t, q = PyStr t /\ clean t) qs.
Proof.
  intros Hnone.
  rewrite (generate_questions_answered _ _ _ _ _ _ _ _ answered).
  rewrite parse_questions_eval, Hnone, question_lines_kept.
  pose proof (kept_lines_clean response) as Hclean.
  destruct (kept_lines response) as [|l ls] eqn:E; intros [= <- _].
  - apply no_questions_clean.
  - apply Forall_forall. intros q Hq.
    change (In q (map PyStr (l :: ls))) in Hq.
    apply in_map_iff in Hq as (t & <- & Ht).
    exists t. split; [reflexivity|].
    now apply (proj1 (Forall_forall _ _) Hclean).
Qed.

End QuestionFacts.

Lemma questions_empty_iff_witness :
  fst (generate_questions (lib := strict) (answering (lit " [ ] "))
                          (lit "We sell shoes") None None None fresh)
  = Return [].
Proof.
  apply (questions_empty_iff (lib := strict) (answering (lit " [ ] "))
           (lit "We sell shoes") None None None fresh
           (snd (run (questions_chain (answering (lit " [ ] ")))
                     (context (lit "We sell shoes") None None None) fresh))
           (lit " [ ] ")
           ltac:(vm_compute; reflexivity)).
  vm_compute. reflexivity.
Defined.

Lemma fallback_questions_clean_witness :
  Forall (fun q => exists t, q = PyStr t /\ clean t)
         [PyStr (lit "1. Who are the users?"); PyStr (lit "2. [optional] Which data?")].
Proof.
  apply (fallback_questions_clean (lib := strict)
           (answering (lit "  1. Who are the users?  
[
   2. [optional] Which data?
]"))
           (lit "We sell shoes") None None None fresh
           (snd (run (questions_chain (answering (lit "  1. Who are the users?  
[
   2. [optional] Which data?
]")))
                     (context (lit "We sell shoes") None None None) fresh))
           (lit "  1. Who are the users?  
[
   2. [optional] Which data?
]")
           ltac:(vm_compute; reflexivity)
           [PyStr (lit "1. Who are the users?"); PyStr (lit "2. [optional] Which data?")]
           (snd (run (questions_chain (answering (lit "  1. Who are the users?  
[
   2. [optional] Which data?
]")))
                     (context (lit "We sell shoes") None None None) fresh))
           ltac:(vm_compute; reflexivity)
           ltac:(vm_compute; reflexivity)).
Defined.

(** ** The text kept by the bracket count *)

Lemma balance_app a b : balance (a ++ b) = (balance a + balance b)%Z.
Proof. induction a as [|c a IH]; cbn [app balance]; lia. Qed.

(** Where the loop breaks: at the first closing bracket that brings the
    count, started at [d], to zero. *)
Lemma closing_bracket_spec s :
  forall d i,
    match closing_bracket s d i with
    | Some k =>
        exists pre post,
          s = pre ++ rbracket :: post /\ k = i + List.length pre
          /\ (d + balance pre = 1)%Z
          /\ (forall p q, pre = p ++ rbracket :: q -> (d + balance p <> 1)%Z)
    | None => forall p q, s = p ++ rbracket :: q -> (d + balance p <> 1)%Z
    end.
Proof.
  induction s as [|c s IH]; intros d i; cbn [closing_bracket].
  - intros [|x p] q H; discriminate H.
  - destruct (N.eqb_spec c lbracket) as [->|Hl].
    + specialize (IH (d + 1)%Z (S i)).
      destruct (closing_bracket s (d + 1) (S i)) as [k|].
      * destruct IH as (pre & post & -> & -> & Hbal & Hmin).
        exists (lbracket :: pre), post. cbn [app List.length balance].
        change (lbracket =? lbracket)%N with true. cbv iota.
        repeat split; [lia | lia |].
        intros [|x p] q H; [discriminate H|]. injection H as <- H.
        cbn [balance]. change (lbracket =? lbracket)%N with true. cbv iota.
        specialize (Hmin p q H). lia.
      * intros [|x p] q H; [discriminate H|]. injection H as <- H.
        cbn [balance]. change (lbracket =? lbracket)%N with true. cbv iota.
        specialize (IH p q H). lia.
    + destruct (N.eqb_spec c rbracket) as [->|Hr].
      * cbv zeta. destruct (Z.eqb_spec (d - 1) 0) as [Hd|Hd].
        -- exists [], s. cbn [app List.length balance].
           repeat split; [lia | lia |].
           intros [|x p] q H; discriminate H.
        -- specialize (IH (d - 1)%Z (S i)).
           destruct (closing_bracket s (d - 1) (S i)) as [k|].
           ++ destruct IH as (pre & post & -> & -> & Hbal & Hmin).
              exists (rbracket :: pre), post. cbn [app List.length balance].
              change (rbracket =? lbracket)%N with false.
              change (rbracket =? rbracket)%N with true. cbv iota.
              repeat split; [lia | lia |].
              intros [|x p] q H.
              ** cbn [balance]. lia.
              ** injection H as <- H. cbn [balance].
                 change (rbracket =? lbracket)%N with false.
                 change (rbracket =? rbracket)%N with true. cbv iota.
                 specialize (Hmin p q H). lia.
           ++ intros [|x p] q H.
              ** cbn [balance]. lia.
              ** injection H as <- H. cbn [balance].
                 change (rbracket =? lbracket)%N with false.
                 change (rbracket =? rbracket)%N with true. cbv iota.
                 specialize (IH p q H). lia.
      * apply N.eqb_neq in Hl, Hr.
        specialize (IH d (S i)).
        destruct (closing_bracket s d (S i)) as [k|].
        -- destruct IH as (pre & post & -> & -> & Hbal & Hmin).
           exists (c :: pre), post. cbn [app List.length balance].
           rewrite Hl, Hr. repeat split; [lia | lia |].
           intros [|x p] q H.
           ++ injection H as -> _. now rewrite N.eqb_refl in Hr.
           ++ injection H as <- H. cbn [balance]. rewrite Hl, Hr.
              specialize (Hmin p q H). lia.
        -- intros [|x p] q H.
           ++ injection H as -> _. now rewrite N.eqb_refl in Hr.
           ++ injection H as <- H. cbn [balance]. rewrite Hl, Hr.
              specialize (IH p q H). lia.
Qed.

(** X3. The text that the bracket count keeps is a prefix of the text it
    reads.  When it is a proper prefix it ends with a closing bracket and
    has as many opening as closing brackets; and in the text kept no
    shorter prefix ending with a closing bracket is balanced. *)
Theorem isolate_shortest_balanced s :
  (exists rest, s = isolate s ++ rest)
  /\ (isolate s <> s ->
      balance (isolate s) = 0%Z /\ exists pre, isolate s = pre ++ [rbracket])
  /\ (forall p q,
         isolate s = p ++ rbracket :: q -> q <> [] ->
         balance (p ++ [rbracket]) <> 0%Z).
Proof.
  unfold isolate. pose proof (closing_bracket_spec s 0 0) as H.
  destruct (closing_bracket s 0 0) as [k|].
  - destruct H as (pre & post & -> & -> & Hbal & Hmin).
    assert (Hkeep : firstn (0 + List.length pre + 1) (pre ++ rbracket :: post)
                    = pre ++ [rbracket]).
    { replace (0 + List.length pre + 1) with (List.length (pre ++ [rbracket]))
        by (rewrite length_app; cbn; lia).
      change (pre ++ rbracket :: post) with (pre ++ [rbracket] ++ post).
      rewrite app_assoc. rewrite firstn_app, firstn_all, Nat.sub_diag.
      cbn [firstn]. apply app_nil_r. }
    rewrite Hkeep. split; [|split].
    + exists post. now rewrite <- app_assoc.
    + intros _. split; [|now exists pre].
      rewrite balance_app. cbn [balance].
      change (rbracket =? lbracket)%N with false.
      change (rbracket =? rbracket)%N with true. cbv iota. lia.
    + intros p q Hpq Hq.
      destruct (exists_last Hq) as (q' & y & ->).
      change (p ++ rbracket :: q' ++ [y]) with (p ++ (rbracket :: q') ++ [y]) in Hpq.
      rewrite app_assoc in Hpq. apply app_inj_tail in Hpq as [Hpre _].
      rewrite balance_app. cbn [balance].
      change (rbracket =? lbracket)%N with false.
      change (rbracket =? rbracket)%N with true. cbv iota.
      specialize (Hmin p q' Hpre). lia.
  - split; [|split].
    + exists []. now rewrite app_nil_r.
    + intros Hne. now elim Hne.
    + intros p q Hpq _. specialize (H p q Hpq).
      rewrite balance_app. cbn [balance].
      change (rbracket =? lbracket)%N with false.
      change (rbracket =? rbracket)%N with true. cbv iota. lia.
Qed.

(** ** More on [generate_masterplan] *)

Lemma re_search_match s i : re_search s = Some i -> match_here (skipn i s) = true.
Proof.
  revert i; induction s as [|c s IH]; intros i; cbn [re_search].
  - destruct (match_here []) eqn:E; [discriminate E | discriminate].
  - destruct (match_here (c :: s)) eqn:E.
    + intros [= <-]. exact E.
    + destruct (re_search s) as [j|]; [|discriminate].
      intros [= <-]. cbn [skipn]. now apply IH.
Qed.

Lemma array_items_nonempty f s vs rest : array_items f s = Ok vs rest -> vs <> [].
Proof.
  destruct f as [|f]; [discriminate|]. cbn [array_items].
  destruct (scan_once f s) as [v rest1| |]; try discriminate.
  destruct (skip_ws rest1) as [|x r]; [discriminate|].
  destruct (x =? rbracket)%N; [intros [= <- _]; discriminate|].
  destruct (x =? 44)%N; [|discriminate].
  destruct (array_items f (skip_ws r)); cbn; try discriminate.
  intros [= <- _]. discriminate.
Qed.

Lemma isspace_run_prefix w t pre post :
  forallb isspace w = true ->
  w ++ lbrace :: t = pre ++ rbracket :: post ->
  exists t', pre = w ++ lbrace :: t'.
Proof.
  intros Hw; revert pre; induction w as [|c w IH]; intros [|x pre] H;
    cbn [app] in *.
  - discriminate H.
  - injection H as <- H. now exists pre.
  - injection H as -> _. discriminate Hw.
  - injection H as <- H. apply andb_true_iff in Hw as [_ Hw].
    destruct (IH Hw pre H) as (t' & ->). now exists t'.
Qed.

Lemma skip_ws_isspace_run w t x y :
  forallb isspace w = true -> skip_ws (w ++ lbrace :: t) = x :: y -> x <> rbracket.
Proof.
  intros Hw; induction w as [|c w IH]; cbn [app skip_ws].
  - change (is_ws lbrace) with false. cbv iota. intros [= <- _]. discriminate.
  - apply andb_true_iff in Hw as [Hc Hw].
    destruct (is_ws c); [now apply IH|].
    intros [= <- _] ->. discriminate Hc.
Qed.

(** The text kept after a marker, when it decodes, decodes to a list that
    is not empty. *)
Lemma loads_marked_array content v :
  match_here content = true ->
  json_loads (isolate content) = Some v ->
  exists x l, v = PyList (x :: l).
Proof.
  intros Hmark. apply match_here_marker in Hmark as (w1 & w2 & rest & -> & Hw1 & _).
  cbn [app].
  assert (Hkept : exists t, isolate (lbracket :: w1 ++ lbrace :: w2 ++ qlit "'name':" ++ rest)
                            = lbracket :: w1 ++ lbrace :: t).
  { destruct (isolate_shortest_balanced
                (lbracket :: w1 ++ lbrace :: w2 ++ qlit "'name':" ++ rest))
      as ((tail & Htail) & Hcut & _).
    set (s := lbracket :: w1 ++ lbrace :: w2 ++ qlit "'name':" ++ rest) in *.
    destruct (list_eq_dec N.eq_dec (isolate s) s) as [E|E].
    - rewrite E. now eexists.
    - destruct (Hcut E) as (_ & pre & Hpre).
      rewrite Hpre in Htail |- *. unfold s in Htail.
      destruct pre as [|x pre]; [discriminate Htail|].
      injection Htail as <- Htail.
      rewrite <- app_assoc in Htail. cbn [app] in Htail.
      apply (isspace_run_prefix _ _ _ _ Hw1) in Htail as (t' & ->).
      exists (t' ++ [rbracket]). cbn [app]. now rewrite <- app_assoc. }
  destruct Hkept as (t & ->).
  unfold json_loads. cbn [skip_ws]. change (is_ws lbracket) with false. cbv iota.
  cbn [scan_once].
  change (lbracket =? dquote)%N with false.
  change (lbracket =? lbrace)%N with false.
  change (lbracket =? lbracket)%N with true. cbv iota.
  destruct (skip_ws (w1 ++ lbrace :: t)) as [|x r'] eqn:E; [discriminate|].
  apply (skip_ws_isspace_run _ _ _ _ Hw1) in E.
  destruct (N.eqb_spec x rbracket) as [->|_]; [now elim E|].
  destruct (array_items _ _) as [vs rest'| |] eqn:Ea; cbn [scan_map]; try discriminate.
  apply array_items_nonempty in Ea.
  destruct (skip_ws rest'); [|discriminate]. intros [= <-].
  destruct vs as [|x0 l]; [now elim Ea|]. now exists x0, l.
Qed.

Section MasterplanFacts.

Context {lib : Library}.

Lemma mapM_APISpec_new_length l specs w w' :
  mapM APISpec_new l w = (Return specs, w') -> List.length specs = List.length l.
Proof.
  revert specs w w'; induction l as [|v l IH]; intros specs w w'; cbn [mapM].
  - intros [= <- _]. reflexivity.
  - unfold bind. destruct (APISpec_new v w) as [[a|e] w2]; [|discriminate].
    destruct (mapM APISpec_new l w2) as [[as'|e] w3] eqn:E; [|discriminate].
    intros [= <- _]. cbn. f_equal. exact (IH _ _ _ E).
Qed.

Variables (self : ChatOPT) (ms : str) (cn ind bs : option str) (w w1 : world).
Variable response : str.
Hypothesis answered :
  run (masterplan_chain self) (context ms cn ind bs) w = (Return response, w1).

(** X4. Once the chain has answered, the result of [generate_masterplan]
    has no questions and is of one of two kinds.  Either it has no
    specification, and its text is the response as it is or the error
    text of an exception that is not a [ValueError].  Or it has as many
    specifications as the array decoded after the leftmost marker has
    elements, at least one, and its text is what precedes the marker,
    trimmed.  The text is never trimmed without a specification. *)
Theorem masterplan_specs_or_raw_text r w' :
  generate_masterplan self ms cn ind bs w = (Return r, w') ->
  questions r = None
  /\ ((api_specs r = []
       /\ (markdown_content r = response
           \/ exists e,
               is_ValueError e = false
               /\ markdown_content r
                  = lit "An error occurred while generating the masterplan: "
                    ++ exn_str e))
      \/ (api_specs r <> []
          /\ exists i records,
              re_search response = Some i
              /\ json_loads (isolate (skipn i response)) = Some (PyList records)
              /\ List.length (api_specs r) = List.length records
              /\ markdown_content r = strip (firstn i response)
              /\ strip (markdown_content r) = markdown_content r)).
Proof.
  intros Hrun.
  pose proof (generate_masterplan_answered _ _ _ _ _ _ _ _ answered) as H.
  rewrite Hrun in H. cbn [fst] in H. injection H as ->.
  unfold find_api_specs.
  destruct (re_search response) as [i|] eqn:Ei.
  2:{ cbn. split; [reflexivity|]. left. auto. }
  unfold bind. rewrite loads_eval.
  destruct (json_loads (isolate (skipn i response))) as [v|] eqn:Ev.
  2:{ cbn. split; [reflexivity|]. left. auto. }
  destruct (loads_marked_array _ _ (re_search_match _ _ Ei) Ev) as (x & l & ->).
  cbn [iter ret].
  destruct (mapM APISpec_new (x :: l) w1) as [[specs|e] w2] eqn:Em.
  - apply mapM_APISpec_new_length in Em.
    cbn [fst MasterplanResponse_new markdown_content api_specs questions].
    split; [reflexivity|]. right. split.
    + destruct specs; [discriminate Em | discriminate].
    + exists i, (x :: l). repeat split; auto. apply strip_idem.
  - cbn [fst]. destruct (is_ValueError e) eqn:He.
    + cbn. split; [reflexivity|]. left. auto.
    + cbn [masterplan_error MasterplanResponse_new markdown_content api_specs
             questions].
      split; [reflexivity|]. left. split; [reflexivity|]. right. now exists e.
Qed.

End MasterplanFacts.

Lemma masterplan_specs_or_raw_text_witness :
  questions (MasterplanResponse_new (lit "Plan overview.") [orders_spec]) = None
  /\ ((api_specs (MasterplanResponse_new (lit "Plan overview.") [orders_spec]) = []
       /\ (markdown_content (MasterplanResponse_new (lit "Plan overview.") [orders_spec]) = plan_with_orders
           \/ exists e,
               is_ValueError e = false
               /\ markdown_content (MasterplanResponse_new (lit "Plan overview.") [orders_spec])
                  = lit "An error occurred while generating the masterplan: "
                    ++ exn_str e))
      \/ (api_specs (MasterplanResponse_new (lit "Plan overview.") [orders_spec]) <> []
          /\ exists i records,
              re_search plan_with_orders = Some i
              /\ json_loads (isolate (skipn i plan_with_orders))
                 = Some (PyList records)
              /\ List.length (api_specs (MasterplanResponse_new (lit "Plan overview.") [orders_spec])) = List.length records
              /\ markdown_content (MasterplanResponse_new (lit "Plan overview.") [orders_spec]) = strip (firstn i plan_with_orders)
              /\ strip (markdown_content (MasterplanResponse_new (lit "Plan overview.") [orders_spec])) = markdown_content (MasterplanResponse_new (lit "Plan overview.") [orders_spec]))).
Proof.
  apply (masterplan_specs_or_raw_text (lib := strict)
           (answering plan_with_orders)
           (lit "We sell shoes") None None None fresh
           (snd (run (masterplan_chain (answering plan_with_orders))
                     (context (lit "We sell shoes") None None None) fresh))
           plan_with_orders
           ltac:(vm_compute; reflexivity)
           (MasterplanResponse_new (lit "Plan overview.") [orders_spec])
           (snd (generate_masterplan (lib := strict) (answering plan_with_orders)
                                     (lit "We sell shoes") None None None fresh))).
  vm_compute. reflexivity.
Defined.

(** ** Text after the array *)








Section TrailingText.

Context {lib : Library}.
Variables (self : ChatOPT) (ms : str) (cn ind bs : option str) (w w1 : world).
Variables md arr tail : str.
Hypothesis answered :
  run (masterplan_chain self) (context ms cn ind bs) w
  = (Return (md ++ arr ++ tail), w1).


End TrailingText.


(** ** The endpoints *)

Section EndpointFacts.

Context {lib : Library}.

Lemma generate_questions_returns self ms cn ind bs w :
  exists qs w', generate_questions self ms cn ind bs w = (Return qs, w').
Proof.
  unfold generate_questions, try_except, Exception.
  destruct (bind _ _ w) as [[qs|e] w']; [eauto|]. do 2 eexists. reflexivity.
Qed.

Lemma generate_masterplan_returns self ms cn ind bs w :
  exists r w', generate_masterplan self ms cn ind bs w = (Return r, w').
Proof.
  unfold generate_masterplan, try_except, Exception.
  destruct (bind _ _ w) as [[r|e] w']; [eauto|]. do 2 eexists. reflexivity.
Qed.

(** X6. Neither handler raises its [HTTPException]: the operations of
    [ChatOPT] catch every exception themselves, so the [except] branch of
    a handler is never taken.  The handler of [/generate_masterplan]
    returns the result of [ChatOPT.generate_masterplan] on the fields of
    the request, that of [/ask_questions] an object whose only key,
    [questions], holds the list [ChatOPT.generate_questions] returns.  What
    the framework does with the value returned, its validation and its
    encoding, is not part of the handlers. *)
Theorem handlers_never_raise_http_exception chat_opt request w :
  (exists r w',
      App.generate_masterplan chat_opt request w = (Return (App.Body r), w')
      /\ generate_masterplan chat_opt
           (App.mission_statement request) (App.company_name request)
           (App.industry request) (App.business_size request) w
         = (Return r, w'))
  /\ (exists qs w',
         App.ask_questions chat_opt request w
         = (Return (App.Body (PyDict [(lit "questions", PyList qs)])), w')
         /\ generate_questions chat_opt
              (App.mission_statement request) (App.company_name request)
              (App.industry request) (App.business_size request) w
            = (Return qs, w')).
Proof.
  split.
  - destruct (generate_masterplan_returns chat_opt
                (App.mission_statement request) (App.company_name request)
                (App.industry request) (App.business_size request) w)
      as (r & w' & H).
    exists r, w'. split; [|exact H].
    unfold App.generate_masterplan, try_except, bind. now rewrite H.
  - destruct (generate_questions_returns chat_opt
                (App.mission_statement request) (App.company_name request)
                (App.industry request) (App.business_size request) w)
      as (qs & w' & H).
    exists qs, w'. split; [|exact H].
    unfold App.ask_questions, try_except, bind. now rewrite H.
Qed.

End EndpointFacts.

(** ** The client *)

Section ClientFacts.

Context {lib : Library} {py : Gradio.Interpreter}.

Lemma add_endpoint_complete ep acc w :
  Shown.complete ep = true ->
  Gradio.add_endpoint (PyDict ep) (PyStr acc) w
  = (Return (PyStr (acc ++ Shown.endpoint_line ep)), w).
Proof.
  unfold Shown.complete, Gradio.add_endpoint, Shown.endpoint_line, Shown.field,
    Gradio.getitem, bind.
  destruct (dict_get (lit "method") ep); [|discriminate].
  destruct (dict_get (lit "path") ep); [|discriminate].
  destruct (dict_get (lit "purpose") ep); [|discriminate].
  reflexivity.
Qed.

Lemma add_endpoint_missing ep acc w :
  Shown.complete ep = false ->
  Gradio.add_endpoint (PyDict ep) acc w
  = (Raise {| exn_cls := KeyError;
              exn_str := lit "'" ++ Shown.first_missing ep ++ lit "'" |}, w).
Proof.
  unfold Shown.complete, Gradio.add_endpoint, Shown.first_missing,
    Gradio.getitem, bind.
  destruct (dict_get (lit "method") ep); [|reflexivity].
  destruct (dict_get (lit "path") ep); [|reflexivity].
  destruct (dict_get (lit "purpose") ep); [discriminate|reflexivity].
Qed.

Lemma foldM_endpoints eps : forall acc w,
  forallb Shown.complete eps = true ->
  Gradio.foldM Gradio.add_endpoint (map PyDict eps) (PyStr acc) w
  = (Return (PyStr (acc ++ List.concat (map Shown.endpoint_line eps))), w).
Proof.
  induction eps as [|ep eps IH]; intros acc w H.
  - cbn [map List.concat Gradio.foldM]. now rewrite app_nil_r.
  - cbn [forallb] in H. apply andb_true_iff in H as [Hep H].
    cbn [map List.concat Gradio.foldM].
    erewrite bind_Return by (apply add_endpoint_complete; exact Hep).
    rewrite IH by exact H. now rewrite app_assoc.
Qed.

Lemma foldM_endpoints_missing eps1 ep eps2 : forall acc w,
  forallb Shown.complete eps1 = true ->
  Shown.complete ep = false ->
  Gradio.foldM Gradio.add_endpoint (map PyDict (eps1 ++ ep :: eps2)) (PyStr acc) w
  = (Raise {| exn_cls := KeyError;
              exn_str := lit "'" ++ Shown.first_missing ep ++ lit "'" |}, w).
Proof.
  induction eps1 as [|e eps1 IH]; intros acc w H Hep.
  - cbn [app map Gradio.foldM].
    now erewrite bind_Raise by (apply add_endpoint_missing; exact Hep).
  - cbn [forallb] in H. apply andb_true_iff in H as [He H].
    cbn [app map Gradio.foldM].
    erewrite bind_Return by (apply add_endpoint_complete; exact He).
    now apply IH.
Qed.

Lemma add_spec_complete a acc w :
  forallb Shown.complete (endpoints a) = true ->
  Gradio.add_spec (Gradio.spec_json a) (PyStr acc) w
  = (Return (PyStr (acc ++ Shown.section a)), w).
Proof.
  intros H. unfold Gradio.add_spec.
  erewrite bind_Return by reflexivity.
  erewrite bind_Return by reflexivity.
  erewrite bind_Return by reflexivity.
  erewrite bind_Return by reflexivity.
  erewrite bind_Return by reflexivity.
  erewrite bind_Return by reflexivity.
  erewrite bind_Return by reflexivity.
  erewrite bind_Return by (apply foldM_endpoints; exact H).
  erewrite bind_Return by reflexivity.
  erewrite bind_Return by reflexivity.
  erewrite bind_Return by reflexivity.
  unfold Gradio.iadd, ret, Shown.section.
  rewrite !Gradio.str_of_str. cbn [Gradio.truthy].
  now rewrite <- !app_assoc.
Qed.

Lemma add_spec_missing a eps1 ep eps2 acc w :
  endpoints a = eps1 ++ ep :: eps2 ->
  forallb Shown.complete eps1 = true ->
  Shown.complete ep = false ->
  Gradio.add_spec (Gradio.spec_json a) (PyStr acc) w
  = (Raise {| exn_cls := KeyError;
              exn_str := lit "'" ++ Shown.first_missing ep ++ lit "'" |}, w).
Proof.
  intros Ha H Hep. unfold Gradio.add_spec.
  erewrite bind_Return by reflexivity.
  erewrite bind_Return by reflexivity.
  erewrite bind_Return by reflexivity.
  erewrite bind_Return by reflexivity.
  erewrite bind_Return by reflexivity.
  erewrite bind_Return by reflexivity.
  erewrite bind_Return by reflexivity.
  erewrite bind_Raise; [reflexivity|].
  rewrite Ha. apply foldM_endpoints_missing; assumption.
Qed.

Lemma foldM_specs specs : forall acc w,
  (forall a, In a specs -> forallb Shown.complete (endpoints a) = true) ->
  Gradio.foldM Gradio.add_spec (map Gradio.spec_json specs) (PyStr acc) w
  = (Return (PyStr (acc ++ List.concat (map Shown.section specs))), w).
Proof.
  induction specs as [|a specs IH]; intros acc w H.
  - cbn [map List.concat Gradio.foldM]. now rewrite app_nil_r.
  - cbn [map List.concat Gradio.foldM].
    erewrite bind_Return by (apply add_spec_complete; apply H; now left).
    rewrite IH by (intros a' Ha'; apply H; now right).
    now rewrite app_assoc.
Qed.

Lemma foldM_specs_missing before a rest eps1 ep eps2 : forall acc w,
  (forall a', In a' before -> forallb Shown.complete (endpoints a') = true) ->
  endpoints a = eps1 ++ ep :: eps2 ->
  forallb Shown.complete eps1 = true ->
  Shown.complete ep = false ->
  Gradio.foldM Gradio.add_spec (map Gradio.spec_json (before ++ a :: rest)) (PyStr acc) w
  = (Raise {| exn_cls := KeyError;
              exn_str := lit "'" ++ Shown.first_missing ep ++ lit "'" |}, w).
Proof.
  induction before as [|b before IH]; intros acc w H Ha H1 Hep.
  - cbn [app map Gradio.foldM].
    now erewrite bind_Raise by (eapply add_spec_missing; eassumption).
  - cbn [app map Gradio.foldM].
    erewrite bind_Return by (apply add_spec_complete; apply H; now left).
    apply IH; try assumption. intros a' Ha'; apply H; now right.
Qed.

Lemma get_markdown_content r default w :
  Gradio.get (Gradio.masterplan_json r) (lit "markdown_content") default w
  = (Return (PyStr (markdown_content r)), w).
Proof. reflexivity. Qed.

Lemma get_api_specs r default w :
  Gradio.get (Gradio.masterplan_json r) (lit "api_specs") default w
  = (Return (PyList (map Gradio.spec_json (api_specs r))), w).
Proof. reflexivity. Qed.

End ClientFacts.

Section ClientTheorems.

Context {lib : Library} {py : Gradio.Interpreter}.
Variable post : Gradio.Post.
Variables (ms : str) (cn ind bs : option str) (answers : str).

(** What the form posts to [/generate_masterplan]. *)
Let posted : outcome Gradio.Response :=
  post (Gradio.API_URL ++ lit "/generate_masterplan")
       (Gradio.payload
          (ms ++ [newline; newline] ++ lit "Additional Information:" ++ [newline]
           ++ answers)
          cn ind bs).

(** X7. When the server answers status 200 with the JSON object of a
    masterplan [r] in which every endpoint has a method, a path and a
    purpose, [generate_masterplan] of the form returns the markdown of [r]
    followed, when [r] has specifications, by the heading and one section
    for each specification in order: its name, description, one line for
    each endpoint, Yes or No, and the reason.  With no specification the
    markdown is returned as it is, without the heading. *)
Theorem client_renders_masterplan response r w :
  posted = Return response ->
  Gradio.status_code response = 200%Z ->
  Gradio.json response = Return (Gradio.masterplan_json r) ->
  (forall a, In a (api_specs r) -> forallb Shown.complete (endpoints a) = true) ->
  Gradio.generate_masterplan post ms cn ind bs answers w
  = (Return (PyStr (Shown.rendered r)), w).
Proof.
  unfold posted. intros Hpost Hstatus Hjson Hcomplete.
  unfold Gradio.generate_masterplan. apply try_Return.
  unfold Gradio.call, bind at 1. rewrite Hpost, Hstatus. cbn [Z.eqb Pos.eqb].
  unfold bind at 1. rewrite Hjson.
  rewrite (bind_Return _ _ _ _ _ (get_markdown_content r _ w)).
  rewrite (bind_Return _ _ _ _ _ (get_api_specs r _ w)).
  unfold Shown.rendered.
  destruct (api_specs r) as [|a specs] eqn:E.
  - cbn [map Gradio.truthy ret]. now rewrite app_nil_r.
  - cbn [map Gradio.truthy].
    erewrite bind_Return by reflexivity.
    erewrite bind_Return by reflexivity.
    change (Gradio.spec_json a :: map Gradio.spec_json specs)
      with (map Gradio.spec_json (a :: specs)).
    rewrite foldM_specs by exact Hcomplete.
    now rewrite <- !app_assoc.
Qed.

(** X8. When the server answers status 200 with the JSON object of a
    masterplan in which some endpoint lacks a method, a path or a purpose,
    [generate_masterplan] of the form returns neither the markdown nor any
    section: the result is the text [Error generating masterplan: ] and,
    between apostrophes, the first key that the first such endpoint
    lacks. *)
Theorem client_masterplan_missing_key response r before a rest eps1 ep eps2 w :
  posted = Return response ->
  Gradio.status_code response = 200%Z ->
  Gradio.json response = Return (Gradio.masterplan_json r) ->
  api_specs r = before ++ a :: rest ->
  (forall a', In a' before -> forallb Shown.complete (endpoints a') = true) ->
  endpoints a = eps1 ++ ep :: eps2 ->
  forallb Shown.complete eps1 = true ->
  Shown.complete ep = false ->
  Gradio.generate_masterplan post ms cn ind bs answers w
  = (Return (PyStr (lit "Error generating masterplan: '"
                    ++ Shown.first_missing ep ++ lit "'")), w).
Proof.
  unfold posted. intros Hpost Hstatus Hjson Hspecs Hbefore Ha Heps Hep.
  unfold Gradio.generate_masterplan.
  rewrite (try_caught _ _ _ w
             {| exn_cls := KeyError;
                exn_str := lit "'" ++ Shown.first_missing ep ++ lit "'" |} w);
    [reflexivity| |reflexivity].
  unfold Gradio.call, bind at 1. rewrite Hpost, Hstatus. cbn [Z.eqb Pos.eqb].
  unfold bind at 1. rewrite Hjson.
  rewrite (bind_Return _ _ _ _ _ (get_markdown_content r _ w)).
  rewrite (bind_Return _ _ _ _ _ (get_api_specs r _ w)).
  rewrite Hspecs.
  assert (Htruthy : Gradio.truthy (PyList (map Gradio.spec_json (before ++ a :: rest)))
                    = true) by (destruct before; reflexivity).
  rewrite Htruthy.
  erewrite bind_Return by reflexivity.
  erewrite bind_Return by reflexivity.
  eapply foldM_specs_missing; eassumption.
Qed.

(** X9. [generate_masterplan] of the form never raises and leaves the
    world as it is, whatever the network and the server do.  When the
    request fails with an exception, or the body of a 200 answer is not
    JSON, the result is the text [Error generating masterplan: ] followed
    by the message of the exception; when the status is not 200 it is
    [Error: ] followed by the text of the answer. *)
Theorem client_masterplan_never_raises w :
  exists result,
    Gradio.generate_masterplan post ms cn ind bs answers w = (Return result, w)
    /\ match posted with
       | Raise e => result = PyStr (lit "Error generating masterplan: " ++ exn_str e)
       | Return response =>
           if (Gradio.status_code response =? 200)%Z then
             match Gradio.json response with
             | Raise e =>
                 result = PyStr (lit "Error generating masterplan: " ++ exn_str e)
             | Return _ => True
             end
           else result = PyStr (lit "Error: " ++ Gradio.text response)
       end.
Proof.
  unfold posted, Gradio.generate_masterplan, try_except, Exception, Gradio.call.
  unfold bind at 1.
  destruct (post _ _) as [response|e]; [|eexists; split; reflexivity].
  destruct (Gradio.status_code response =? 200)%Z; [|eexists; split; reflexivity].
  unfold bind at 1.
  destruct (Gradio.json response) as [data|e]; [|eexists; split; reflexivity].
  assert (Hget : forall key default,
             (exists v, Gradio.get data key default w = (Return v, w))
             \/ (exists e, Gradio.get data key default w = (Raise e, w))).
  { intros. destruct data;
      solve [left; eexists; reflexivity | right; eexists; reflexivity]. }
  assert (Hiadd : forall target t w0,
             (exists v, Gradio.iadd target t w0 = (Return v, w0))
             \/ (exists e, Gradio.iadd target t w0 = (Raise e, w0))).
  { intros. destruct target;
      solve [left; eexists; reflexivity | right; eexists; reflexivity]. }
  assert (Hgetitem : forall v key w0,
             (exists x, Gradio.getitem v key w0 = (Return x, w0))
             \/ (exists e, Gradio.getitem v key w0 = (Raise e, w0))).
  { intros. unfold Gradio.getitem. destruct v;
      try match goal with |- context [dict_get ?k ?d] => destruct (dict_get k d) end;
      solve [left; eexists; reflexivity | right; eexists; reflexivity]. }
  assert (Hiter : forall v w0,
             (exists x, iter v w0 = (Return x, w0))
             \/ (exists e, iter v w0 = (Raise e, w0))).
  { intros. destruct v;
      solve [left; eexists; reflexivity | right; eexists; reflexivity]. }
  assert (Hbind : forall A B (m : M A) (k : A -> M B) w0,
             ((exists a, m w0 = (Return a, w0)) \/ (exists e, m w0 = (Raise e, w0))) ->
             (forall a, (exists b, k a w0 = (Return b, w0))
                        \/ (exists e, k a w0 = (Raise e, w0))) ->
             (exists b, bind m k w0 = (Return b, w0))
             \/ (exists e, bind m k w0 = (Raise e, w0))).
  { intros A B m k w0 [[a Hm]|[e Hm]] Hk.
    - rewrite (bind_Return _ _ _ _ _ Hm). apply Hk.
    - right. exists e. now apply bind_Raise. }
  assert (Hfold : forall (f : value -> value -> M value) l s w0,
             (forall a s', (exists b, f a s' w0 = (Return b, w0))
                           \/ (exists e, f a s' w0 = (Raise e, w0))) ->
             (exists b, Gradio.foldM f l s w0 = (Return b, w0))
             \/ (exists e, Gradio.foldM f l s w0 = (Raise e, w0))).
  { intros f l. induction l as [|a l IH]; intros s w0 Hf.
    - left. now exists s.
    - cbn [Gradio.foldM]. apply Hbind; [apply Hf|]. intros s'. now apply IH. }
  assert (Hendpoint : forall a s w0,
             (exists b, Gradio.add_endpoint a s w0 = (Return b, w0))
             \/ (exists e, Gradio.add_endpoint a s w0 = (Raise e, w0))).
  { intros. unfold Gradio.add_endpoint.
    repeat (apply Hbind; [apply Hgetitem|intros]). apply Hiadd. }
  assert (Hspec : forall a s w0,
             (exists b, Gradio.add_spec a s w0 = (Return b, w0))
             \/ (exists e, Gradio.add_spec a s w0 = (Raise e, w0))).
  { intros. unfold Gradio.add_spec.
    apply Hbind; [apply Hgetitem|intros].
    apply Hbind; [apply Hiadd|intros].
    apply Hbind; [apply Hgetitem|intros].
    apply Hbind; [apply Hiadd|intros].
    apply Hbind; [apply Hiadd|intros].
    apply Hbind; [apply Hgetitem|intros].
    apply Hbind; [apply Hiter|intros].
    apply Hbind; [apply Hfold; intros; apply Hendpoint|intros].
    apply Hbind; [apply Hgetitem|intros].
    apply Hbind; [apply Hiadd|intros].
    apply Hbind; [apply Hgetitem|intros].
    apply Hiadd. }
  match goal with
  | |- exists result, (match ?m w with _ => _ end) = _ /\ _ =>
      assert (H : (exists b, m w = (Return b, w)) \/ (exists e, m w = (Raise e, w)))
  end.
  { apply Hbind; [apply Hget|intros md].
    apply Hbind; [apply Hget|intros specs].
    destruct (Gradio.truthy specs).
    - apply Hbind; [apply Hiadd|intros].
      apply Hbind; [apply Hiter|intros].
      apply Hfold. intros; apply Hspec.
    - left. now eexists. }
  destruct H as [[b H]|[e H]]; rewrite H; eexists; split; reflexivity || exact I.
Qed.

End ClientTheorems.

(** ** The questions in the form *)

Lemma split_plain sep s : ~ In sep s -> split sep s = [s].
Proof.
  induction s as [|c s IH]; intros H; cbn [split]; [reflexivity|].
  destruct (N.eqb_spec c sep) as [->|Hc]; [elim H; now left|].
  rewrite IH; [reflexivity|]. intros Hs; apply H; now right.
Qed.

Lemma split_field sep s t : ~ In sep s -> split sep (s ++ sep :: t) = s :: split sep t.
Proof.
  induction s as [|c s IH]; intros H; cbn [app split].
  - now rewrite N.eqb_refl.
  - destruct (N.eqb_spec c sep) as [->|Hc]; [elim H; now left|].
    rewrite IH; [reflexivity|]. intros Hs; apply H; now right.
Qed.

(** Splitting what [join] made gives the fields back, when there is at
    least one and none holds the separator. *)
Lemma split_join sep l :
  l <> [] -> Forall (fun x => ~ In sep x) l -> split sep (Gradio.join [sep] l) = l.
Proof.
  induction l as [|x l IH]; intros Hl H; [easy|].
  inversion H as [|? ? Hx Hrest]; subst.
  destruct l as [|y l].
  - cbn [Gradio.join]. now apply split_plain.
  - change (Gradio.join [sep] (x :: y :: l))
      with (x ++ sep :: Gradio.join [sep] (y :: l)).
    rewrite split_field by exact Hx. now rewrite IH.
Qed.

Lemma uint_str_digits d c : In c (Gradio.uint_str d) -> (48 <= c <= 57)%N.
Proof.
  induction d; cbn [Gradio.uint_str In]; intros H;
    try (destruct H as [<-|H]; [lia | now apply IHd]); easy.
Qed.

Lemma nth_error_enumerate_from {A} (l : list A) : forall start k,
  nth_error (Gradio.enumerate_from start l) k
  = option_map (fun a => (start + k, a)) (nth_error l k).
Proof.
  induction l as [|a l IH]; intros start [|k]; cbn; try reflexivity.
  - now rewrite Nat.add_0_r.
  - rewrite IH. now rewrite Nat.add_succ_r.
Qed.

Lemma length_enumerate_from {A} (l : list A) : forall start,
  List.length (Gradio.enumerate_from start l) = List.length l.
Proof. induction l as [|a l IH]; intros start; cbn; [reflexivity|now rewrite IH]. Qed.

Section QuestionsBox.

Context {lib : Library} {py : Gradio.Interpreter}.
Variable post : Gradio.Post.
Variables (m : str) (c i b : option str).

(** What the form posts to [/ask_questions]. *)
Let asked : outcome Gradio.Response :=
  post (Gradio.API_URL ++ lit "/ask_questions") (Gradio.payload m c i b).

(** X10. [ask_questions] of the form has no guard: it raises exactly when
    the request fails with an exception or the answer has status 200 and a
    body that is not a JSON object (not JSON at all, or a list, a string,
    a number, [null]).  An answer with any other status never raises: it
    gives the one-element list with the fixed error text. *)
Theorem client_questions_raise_iff w :
  ((exists e, Gradio.ask_questions post m c i b w = (Raise e, w))
   <-> ((exists e, asked = Raise e)
        \/ exists response,
             asked = Return response
             /\ Gradio.status_code response = 200%Z
             /\ forall d, Gradio.json response <> Return (PyDict d)))
  /\ (forall response,
         asked = Return response ->
         Gradio.status_code response <> 200%Z ->
         Gradio.ask_questions post m c i b w
         = (Return (PyList [PyStr (lit "Error: Could not generate questions. Please try again.")]),
            w)).
Proof.
  unfold asked, Gradio.ask_questions, Gradio.call. split.
  - unfold bind at 1.
    destruct (post _ _) as [response|e].
    + destruct (Z.eqb_spec (Gradio.status_code response) 200) as [Hs|Hs].
      * unfold bind. destruct (Gradio.json response) as [data|e] eqn:Hj.
        -- destruct data; cbn [Gradio.get raise ret];
             (split;
              [ intros [e He];
                try discriminate He;
                right; exists response; repeat split; try exact Hs;
                intros d0 Hd; rewrite Hj in Hd; discriminate Hd
              | intros [[e He]|(r' & Hr & _ & Hd)];
                [ discriminate He
                | try (eexists; reflexivity);
                  injection Hr as <-; now elim (Hd _ Hj) ] ]).
        -- split; [|intros _; now exists e].
           intros _. right. exists response. repeat split; [exact Hs|].
           intros d Hd. rewrite Hj in Hd. discriminate Hd.
      * split.
        -- intros [e He]. discriminate He.
        -- intros [[e He]|(r' & Hr & Hs' & _)]; [discriminate He|].
           injection Hr as <-. now elim Hs.
    + split; [intros _; left; now exists e|intros _; now exists e].
  - intros response Hr Hs. unfold bind. rewrite Hr.
    destruct (Z.eqb_spec (Gradio.status_code response) 200) as [Hs'|_];
      [now elim Hs|reflexivity].
Qed.

(** X11. When the server answers status 200 with an object whose
    [questions] are strings, at least one, none with a line break in it,
    the handler of the button shows the group and fills the box with as
    many lines as there are questions: line [k] (from 0) is the number
    [k + 1] in decimal, a full stop, a space and question [k] as it is. *)
Theorem questions_box_one_line_each response d qs w :
  asked = Return response ->
  Gradio.status_code response = 200%Z ->
  Gradio.json response = Return (PyDict d) ->
  dict_get (lit "questions") d = Some (PyList (map PyStr qs)) ->
  qs <> [] ->
  Forall (fun q => ~ In newline q) qs ->
  exists text,
    Gradio.ask_btn_click post m c i b w = (Return (Gradio.Update true, text), w)
    /\ List.length (split newline text) = List.length qs
    /\ forall k q,
         nth_error qs k = Some q ->
         nth_error (split newline text) k
         = Some (Gradio.int_str (k + 1) ++ lit ". " ++ q).
Proof.
  unfold asked. intros Hasked Hstatus Hjson Hd Hqs Hlines.
  eexists. split; [|].
  - unfold Gradio.ask_btn_click.
    erewrite bind_Return; cycle 1.
    { unfold Gradio.ask_questions, Gradio.call. unfold bind at 1.
      rewrite Hasked, Hstatus. cbn [Z.eqb Pos.eqb]. unfold bind.
      rewrite Hjson. cbn [Gradio.get]. rewrite Hd. reflexivity. }
    cbn [iter]. erewrite bind_Return by reflexivity. reflexivity.
  - set (line := fun iq : nat * value =>
                   Gradio.int_str (fst iq + 1) ++ lit ". " ++ Gradio.str_of (snd iq)).
    set (lines := map line (Gradio.enumerate (map PyStr qs))).
    assert (Hnth : forall k,
               nth_error lines k
               = option_map (fun q => Gradio.int_str (k + 1) ++ lit ". " ++ q)
                            (nth_error qs k)).
    { intros k. unfold lines, Gradio.enumerate.
      rewrite nth_error_map, nth_error_enumerate_from, nth_error_map.
      destruct (nth_error qs k) as [q|]; [|reflexivity].
      cbn. unfold line. cbn [fst snd]. now rewrite Gradio.str_of_str. }
    assert (Hlen : List.length lines = List.length qs).
    { unfold lines, Gradio.enumerate.
      now rewrite length_map, length_enumerate_from, length_map. }
    assert (Hsplit : split newline (Gradio.join [newline] lines) = lines).
    { apply split_join.
      - intros E. rewrite E in Hlen. destruct qs; [now elim Hqs|discriminate Hlen].
      - apply Forall_forall. intros x Hx.
        apply In_nth_error in Hx as [k Hk]. rewrite Hnth in Hk.
        destruct (nth_error qs k) as [q|] eqn:Eq; [|discriminate Hk].
        injection Hk as <-. intros Hin.
        apply in_app_or in Hin as [Hin|Hin].
        + apply uint_str_digits in Hin. unfold newline in Hin. lia.
        + destruct Hin as [Hin|[Hin|Hin]]; try discriminate Hin.
          rewrite Forall_forall in Hlines.
          exact (Hlines q (nth_error_In _ _ Eq) Hin). }
    rewrite Hsplit. split; [exact Hlen|].
    intros k q Hq. now rewrite Hnth, Hq.
Qed.

End QuestionsBox.

Lemma client_renders_masterplan_witness :
  Gradio.generate_masterplan (lib := strict) (py := Gradio.naming)
    (answering_plan (MasterplanResponse_new (lit "Plan overview.") [orders_spec]))
    (lit "We sell shoes") None None None (lit "Online only") fresh
  = (Return (PyStr (lit "Plan overview.

## API Specifications

### Orders
d

**Endpoints:**
- `GET /o`: list

**Build In-House:** Yes
**Reason:** core

")), fresh).
Proof.
  apply (client_renders_masterplan (lib := strict) (py := Gradio.naming)
           (answering_plan (MasterplanResponse_new (lit "Plan overview.") [orders_spec]))
           (lit "We sell shoes") None None None (lit "Online only")
           {| Gradio.status_code := 200; Gradio.text := [];
              Gradio.json :=
                Return (Gradio.masterplan_json
                          (MasterplanResponse_new (lit "Plan overview.") [orders_spec])) |}
           (MasterplanResponse_new (lit "Plan overview.") [orders_spec])
           fresh).
  - reflexivity.
  - reflexivity.
  - reflexivity.
  - intros a [<-|[]]. vm_compute. reflexivity.
Defined.

Lemma client_masterplan_missing_key_witness :
  Gradio.generate_masterplan (lib := strict) (py := Gradio.naming)
    (answering_plan
       (MasterplanResponse_new (lit "Plan overview.") [orders_spec; billing_spec]))
    (lit "We sell shoes") None None None (lit "Online only") fresh
  = (Return (PyStr (lit "Error generating masterplan: 'purpose'")), fresh).
Proof.
  apply (client_masterplan_missing_key (lib := strict) (py := Gradio.naming)
           (answering_plan
              (MasterplanResponse_new (lit "Plan overview.") [orders_spec; billing_spec]))
           (lit "We sell shoes") None None None (lit "Online only")
           {| Gradio.status_code := 200; Gradio.text := [];
              Gradio.json :=
                Return (Gradio.masterplan_json
                          (MasterplanResponse_new (lit "Plan overview.")
                                                  [orders_spec; billing_spec])) |}
           (MasterplanResponse_new (lit "Plan overview.") [orders_spec; billing_spec])
           [orders_spec] billing_spec []
           [[(lit "method", PyStr (lit "GET"));
             (lit "path", PyStr (lit "/b"));
             (lit "purpose", PyStr (lit "list"))]]
           [(lit "method", PyStr (lit "POST")); (lit "path", PyStr (lit "/b"))]
           []
           fresh).
  - reflexivity.
  - reflexivity.
  - reflexivity.
  - reflexivity.
  - intros a [<-|[]]. vm_compute. reflexivity.
  - reflexivity.
  - vm_compute. reflexivity.
  - vm_compute. reflexivity.
Defined.

Lemma questions_box_one_line_each_witness :
  exists text,
    Gradio.ask_btn_click (lib := strict) (py := Gradio.naming)
      (answering_questions [lit "What do you sell?"; lit "Who buys it?"])
      (lit "We sell shoes") None None None fresh
    = (Return (Gradio.Update true, text), fresh)
    /\ List.length (split newline text) = 2
    /\ forall k q,
         nth_error [lit "What do you sell?"; lit "Who buys it?"] k = Some q ->
         nth_error (split newline text) k
         = Some (Gradio.int_str (k + 1) ++ lit ". " ++ q).
Proof.
  apply (questions_box_one_line_each (lib := strict) (py := Gradio.naming)
           (answering_questions [lit "What do you sell?"; lit "Who buys it?"])
           (lit "We sell shoes") None None None
           {| Gradio.status_code := 200; Gradio.text := [];
              Gradio.json :=
                Return (PyDict [(lit "questions",
                                 PyList (map PyStr [lit "What do you sell?";
                                                    lit "Who buys it?"]))]) |}
           [(lit "questions",
             PyList (map PyStr [lit "What do you sell?"; lit "Who buys it?"]))]
           [lit "What do you sell?"; lit "Who buys it?"]
           fresh).
  - reflexivity.
  - reflexivity.
  - reflexivity.
  - reflexivity.
  - discriminate.
  - repeat constructor; vm_compute; intuition discriminate.
Defined.
